(** * The MCP session provider of the wllama example application

    A shallow embedding of [examples/main/src/utils/mcp.context.tsx]: the
    React context [MCPContext], the component [MCPProvider] with its six
    pieces of state, the handlers it registers on the client and on the
    transport, the hook [useMCP] and the form [ElicitationForm].

    How the embedding reads the source:
    - the six [useState] cells are the record [State]; a setter writes one
      field of the current state;
    - a function defined inside the component is a closure over the state
      of the render that created it.  Such a function takes that render's
      state as its first argument [r] (what it READS), and transforms the
      system [Sys] (what its setters and calls WRITE);
    - objects that live outside React state (the promise of an elicitation,
      the identities of clients and transports) are in [Sys], together with
      the [trace] of calls made to the collaborators that are not part of
      this file (client, transport, console, Ajv);
    - an [async] function runs up to its [await] and stops; the rest is a
      continuation that is resumed with the result of the awaited promise. *)

From stdpp Require Import gmap strings list pretty relations.

Local Open Scope string_scope.
Local Open Scope list_scope.
Set Warnings "-register-all".

(** ** JavaScript values and errors *)

Inductive JsVal : Type :=
| JUndefined
| JNull
| JBool (b : bool)
| JNum (n : nat)
| JStr (s : string)
| JArr (items : list JsVal)
| JObj (fields : list (string * JsVal)).

(** A thrown value: [new Error(message)], a [TypeError], or whatever a
    collaborator rejects with. *)
Inductive Error : Type :=
| Err (name message : string).

(** Normal or abrupt completion of an expression. *)
Inductive Result (A : Type) : Type :=
| Ok (a : A)
| Throw (e : Error).
Arguments Ok {A} a.
Arguments Throw {A} e.

(** [x] is truthy: the test made by [if (x)], [!x], [x && y], [x || y]. *)
Definition truthy (v : JsVal) : bool :=
  match v with
  | JUndefined | JNull => false
  | JBool b => b
  | JNum n => negb (Nat.eqb n 0)
  | JStr s => negb (String.eqb s "")
  | JArr _ | JObj _ => true
  end.

Definition nullish (v : JsVal) : bool :=
  match v with
  | JUndefined | JNull => true
  | _ => false
  end.

Fixpoint assoc (k : string) (fields : list (string * JsVal)) : JsVal :=
  match fields with
  | [] => JUndefined
  | (k', v) :: rest => if String.eqb k k' then v else assoc k rest
  end.

(** The [TypeError] thrown by [v.k] when [v] is [undefined] or [null].  The
    message names the value and the property, in the words of V8; other
    engines word it differently. *)
Definition cannot_read (v : JsVal) (k : string) : Error :=
  Err "TypeError"
      ("Cannot read properties of "
       +:+ match v with JNull => "null" | _ => "undefined" end
       +:+ " (reading '" +:+ k +:+ "')").

(** [v.k]: a [TypeError] on [undefined] and [null], the property otherwise
    ([length] is the only property of arrays and strings that is read). *)
Definition get_prop (v : JsVal) (k : string) : Result JsVal :=
  match v with
  | JUndefined | JNull => Throw (cannot_read v k)
  | JObj fields => Ok (assoc k fields)
  | JArr items =>
      Ok (if String.eqb k "length" then JNum (length items) else JUndefined)
  | JStr s =>
      Ok (if String.eqb k "length" then JNum (String.length s) else JUndefined)
  | JBool _ | JNum _ => Ok JUndefined
  end.

(** [v?.k] *)
Definition get_prop_opt (v : JsVal) (k : string) : JsVal :=
  match get_prop v k with
  | Ok x => x
  | Throw _ => JUndefined
  end.

(** [a ?? b] and [a || b] *)
Definition js_coalesce (a b : JsVal) : JsVal := if nullish a then b else a.
Definition js_or (a b : JsVal) : JsVal := if truthy a then a else b.

(** ** Collaborators: identities, schemas, requests *)

Abbreviation ClientId := nat (only parsing).
Abbreviation TransportId := nat (only parsing).
Abbreviation PromiseId := nat (only parsing).

(** The schemas imported from [../mcp/types.js]; only their identity is used. *)
Inductive Schema : Type :=
| ListToolsResultSchema
| ListPromptsResultSchema
| GetPromptResultSchema
| ListResourcesResultSchema
| ReadResourceResultSchema
| CallToolResultSchema
| LoggingMessageNotificationSchema
| ResourceListChangedNotificationSchema
| ElicitRequestSchema.

(** The first argument of [client.request]. *)
Record Request : Type := mkRequest {
  method : string;
  params : JsVal
}.

(** A call made to a collaborator, in the order the calls are made. *)
Inductive Effect : Type :=
| NewClient (c : ClientId)
| SetClientOnError (c : ClientId)
| NewTransport (t : TransportId) (url : string)
| SetTransportOnClose (t : TransportId)
| SetTransportOnError (t : TransportId)
| SetNotificationHandler (c : ClientId) (schema : Schema)
| SetRequestHandler (c : ClientId) (schema : Schema)
| ClientConnect (c : ClientId) (t : TransportId)
| TransportClose (t : TransportId)
| ClientRequest (c : ClientId) (req : Request) (schema : Schema)
| ConsoleError (label : string) (e : Error)
| ConsoleWarn (label : string) (e : Error)
| ConsoleLog (label : string) (v : JsVal)
| AjvCompile (schema : JsVal)
| AjvValidate (data : JsVal).

(** ** The state of [MCPProvider] *)

(** The function stored by [setElicitationResolver]:
    [(res) => { resolve(res); setElicitationRequest(null);
    setElicitationResolver(null) }], a closure over the [resolve] of the
    promise [p] created by the elicitation handler. *)
Inductive Resolver : Type :=
| ResolverOf (p : PromiseId).

Record State : Type := mkState {
  client : option ClientId;
  transport : option TransportId;
  isConnected : bool;
  elicitationRequest : JsVal;
  elicitationResolver : option Resolver;
  sessionId : option string
}.

(** The initial values given to [useState]. *)
Definition initial_state : State :=
  {| client := None; transport := None; isConnected := false;
     elicitationRequest := JNull; elicitationResolver := None;
     sessionId := None |}.

Inductive PromiseState : Type :=
| Pending
| Fulfilled (v : JsVal)
| Rejected (e : Error).

Record Sys : Type := mkSys {
  react : State;
  promises : gmap nat PromiseState;
  next_id : nat;
  trace : list Effect
}.

Definition initial : Sys :=
  {| react := initial_state; promises := ∅; next_id := 0; trace := [] |}.

(** What the promise returned by an [async] function does: it is fulfilled,
    it is rejected, or it follows another promise: the one returned by
    [client.request], or a promise of [promises]. *)
Inductive Outcome : Type :=
| Resolves (v : JsVal)
| Rejects (e : Error)
| FollowsRequest (c : ClientId) (req : Request) (schema : Schema)
| FollowsPromise (p : PromiseId).

(** An [async] function after its synchronous part: settled, or suspended
    at an [await] whose result (of type [I]) resumes it. *)
Inductive Task (I : Type) : Type :=
| Settled (o : Outcome)
| Awaiting (k : I -> Sys -> Outcome * Sys).
Arguments Settled {I} o.
Arguments Awaiting {I} k.

(** ** Statements: a state and exception monad over [Sys] *)

Definition M (A : Type) : Type := Sys -> Result A * Sys.

Definition ret {A} (a : A) : M A := fun s => (Ok a, s).
Definition throw {A} (e : Error) : M A := fun s => (Throw e, s).
Definition bind {A B} (m : M A) (f : A -> M B) : M B :=
  fun s =>
    match m s with
    | (Ok a, s') => f a s'
    | (Throw e, s') => (Throw e, s')
    end.
Definition try_catch {A} (body : M A) (handler : Error -> M A) : M A :=
  fun s =>
    match body s with
    | (Ok a, s') => (Ok a, s')
    | (Throw e, s') => handler e s'
    end.
Definition lift_result {A} (r : Result A) : M A := fun s => (r, s).
Definition modify (f : Sys -> Sys) : M unit := fun s => (Ok tt, f s).

Notation "x <- m ;; k" := (bind m (fun x => k))
  (at level 100, m at next level, right associativity).
Notation "m ;; k" := (bind m (fun _ => k))
  (at level 100, right associativity).

(** The body of an [async] function: a [return] fulfils (or forwards) the
    promise, an uncaught [throw] rejects it. *)
Definition async (body : M Outcome) : Sys -> Outcome * Sys :=
  fun s =>
    match body s with
    | (Ok o, s') => (o, s')
    | (Throw e, s') => (Rejects e, s')
    end.

Definition return_undefined : M Outcome := ret (Resolves JUndefined).

(** An [async] function that reaches its end without an [await]. *)
Definition settled {I} (f : Sys -> Outcome * Sys) : Sys -> Task I * Sys :=
  fun s => let '(o, s') := f s in (Settled o, s').

(** *** Primitive statements *)

Definition with_react (f : State -> State) (s : Sys) : Sys :=
  {| react := f (react s); promises := promises s;
     next_id := next_id s; trace := trace s |}.

Definition log (e : Effect) (s : Sys) : Sys :=
  {| react := react s; promises := promises s;
     next_id := next_id s; trace := trace s ++ [e] |}.

Definition emit (e : Effect) : M unit := modify (log e).

Definition fresh : M nat :=
  fun s => (Ok (next_id s),
            {| react := react s; promises := promises s;
               next_id := S (next_id s); trace := trace s |}).

Definition setClient (v : option ClientId) : M unit :=
  modify (with_react (fun r =>
    {| client := v; transport := transport r; isConnected := isConnected r;
       elicitationRequest := elicitationRequest r;
       elicitationResolver := elicitationResolver r;
       sessionId := sessionId r |})).

Definition setTransport (v : option TransportId) : M unit :=
  modify (with_react (fun r =>
    {| client := client r; transport := v; isConnected := isConnected r;
       elicitationRequest := elicitationRequest r;
       elicitationResolver := elicitationResolver r;
       sessionId := sessionId r |})).

Definition setIsConnected (v : bool) : M unit :=
  modify (with_react (fun r =>
    {| client := client r; transport := transport r; isConnected := v;
       elicitationRequest := elicitationRequest r;
       elicitationResolver := elicitationResolver r;
       sessionId := sessionId r |})).

Definition setElicitationRequest (v : JsVal) : M unit :=
  modify (with_react (fun r =>
    {| client := client r; transport := transport r;
       isConnected := isConnected r;
       elicitationRequest := v;
       elicitationResolver := elicitationResolver r;
       sessionId := sessionId r |})).

Definition setElicitationResolver (v : option Resolver) : M unit :=
  modify (with_react (fun r =>
    {| client := client r; transport := transport r;
       isConnected := isConnected r;
       elicitationRequest := elicitationRequest r;
       elicitationResolver := v;
       sessionId := sessionId r |})).

Definition setSessionId (v : option string) : M unit :=
  modify (with_react (fun r =>
    {| client := client r; transport := transport r;
       isConnected := isConnected r;
       elicitationRequest := elicitationRequest r;
       elicitationResolver := elicitationResolver r;
       sessionId := v |})).

(** [new Promise(...)]: a fresh pending promise. *)
Definition new_promise : M PromiseId :=
  p <- fresh ;;
  modify (fun s =>
    {| react := react s; promises := <[p := Pending]> (promises s);
       next_id := next_id s; trace := trace s |}) ;;
  ret p.

(** The [resolve] function of promise [p]: it settles a pending promise and
    does nothing to a settled one. *)
Definition resolve_promise (p : PromiseId) (v : JsVal) : M unit :=
  modify (fun s =>
    match promises s !! p with
    | Some Pending =>
        {| react := react s; promises := <[p := Fulfilled v]> (promises s);
           next_id := next_id s; trace := trace s |}
    | _ => s
    end).

(** [client.request(req, schema)]: the call is handed to the client, whose
    promise is returned. *)
Definition client_request (c : ClientId) (req : Request) (schema : Schema)
  : M Outcome :=
  emit (ClientRequest c req schema) ;;
  ret (FollowsRequest c req schema).

(** The task [t], resumed with [i] once the promise it awaits has settled
    (a settled task has nothing left to run). *)
Definition resume {I} (t : Task I) (i : I) : Sys -> Outcome * Sys :=
  match t with
  | Settled o => fun s => (o, s)
  | Awaiting k => k i
  end.

(** An [async] function called and run to its end, [i] being the result of
    its [await]. *)
Definition run {I} (f : Sys -> Task I * Sys) (i : I) : Sys -> Outcome * Sys :=
  fun s => let '(t, s') := f s in resume t i s'.

(** ** [MCPProvider] *)

(** The result of [await newClient.connect(newTransport)]: the handshake
    succeeds, after which [newTransport.sessionId] reads [sid], or fails. *)
Inductive Handshake : Type :=
| HandshakeOk (sid : option string)
| HandshakeFails (error : Error).

Section Provider.

(** [MCP_SERVER_URL] of [../config]. *)
Variable MCP_SERVER_URL : string.

(** *** Handlers installed by [connect] *)

(** [newClient.onerror] *)
Definition client_onerror (error : Error) : M unit :=
  emit (ConsoleError "MCP Client error:" error).

(** [newTransport.onclose] *)
Definition transport_onclose : M unit :=
  setIsConnected false ;;
  setSessionId None.

(** [newTransport.onerror] *)
Definition transport_onerror (err : Error) : M unit :=
  emit (ConsoleError "Transport error" err).

(** The handler of [LoggingMessageNotificationSchema]. *)
Definition logging_handler (notification : JsVal) : M unit :=
  p <- lift_result (get_prop notification "params") ;;
  emit (ConsoleLog "MCP notification:" p).

(** [(res as any).resources?.length ?? 0] *)
Definition resources_count (res : JsVal) : M JsVal :=
  resources <- lift_result (get_prop res "resources") ;;
  ret (js_coalesce (get_prop_opt resources "length") (JNum 0)).

(** The handler of [ResourceListChangedNotificationSchema], a closure over
    [newClient].  It stops at the [await] of the request; [res] is what
    the awaited promise settles to. *)
Definition resourceListChanged_handler (newClient : ClientId)
    (_notification : JsVal) : Sys -> Task (Result JsVal) * Sys :=
  fun s =>
    match client_request newClient
            {| method := "resources/list"; params := JObj [] |}
            ListResourcesResultSchema s with
    | (Ok _, s') =>
        (Awaiting (fun res =>
           async (try_catch
                    (res <- lift_result res ;;
                     count <- resources_count res ;;
                     emit (ConsoleLog "Resources changed, count:" count) ;;
                     return_undefined)
                    (fun e =>
                       emit (ConsoleWarn
                               "Failed to list resources after notification" e) ;;
                       return_undefined))),
         s')
    | (Throw e, s') =>
        settled (async (emit (ConsoleWarn
                                "Failed to list resources after notification" e) ;;
                        return_undefined)) s'
    end.

(** A call of the function stored in [elicitationResolver]. *)
Definition call_resolver (f : Resolver) (res : JsVal) : M unit :=
  match f with
  | ResolverOf p =>
      resolve_promise p res ;;
      setElicitationRequest JNull ;;
      setElicitationResolver None
  end.

(** The handler of [ElicitRequestSchema]: the executor of the new promise
    stores the request and the resolver; the handler returns what the
    promise is resolved with. *)
Definition elicit_handler (request : JsVal) : Sys -> Outcome * Sys :=
  async (p <- new_promise ;;
         setElicitationRequest request ;;
         setElicitationResolver (Some (ResolverOf p)) ;;
         ret (FollowsPromise p)).

(** *** [connect] *)

(** The statements of the [try] block before the [await]. *)
Definition connect_setup : M (ClientId * TransportId) :=
  newClient <- fresh ;;
  emit (NewClient newClient) ;;
  emit (SetClientOnError newClient) ;;
  newTransport <- fresh ;;
  emit (NewTransport newTransport MCP_SERVER_URL) ;;
  emit (SetTransportOnClose newTransport) ;;
  emit (SetTransportOnError newTransport) ;;
  emit (SetNotificationHandler newClient LoggingMessageNotificationSchema) ;;
  emit (SetNotificationHandler newClient ResourceListChangedNotificationSchema) ;;
  emit (SetRequestHandler newClient ElicitRequestSchema) ;;
  emit (ClientConnect newClient newTransport) ;;
  ret (newClient, newTransport).

(** The statements of the [try] block after the [await]. *)
Definition connect_connected (newClient : ClientId) (newTransport : TransportId)
    (h : Handshake) : M Outcome :=
  match h with
  | HandshakeFails error => throw error
  | HandshakeOk sid =>
      setClient (Some newClient) ;;
      setTransport (Some newTransport) ;;
      setIsConnected true ;;
      setSessionId sid ;;
      return_undefined
  end.

(** The [catch] block. *)
Definition connect_catch (error : Error) : M Outcome :=
  emit (ConsoleError "Failed to connect to MCP server:" error) ;;
  setClient None ;;
  setTransport None ;;
  setIsConnected false ;;
  return_undefined.

Definition connect (r : State) : Sys -> Task Handshake * Sys :=
  fun s =>
    match client r with
    | Some _ => settled (async return_undefined) s
    | None =>
        match connect_setup s with
        | (Ok (newClient, newTransport), s') =>
            (Awaiting (fun h =>
               async (try_catch (connect_connected newClient newTransport h)
                                connect_catch)),
             s')
        | (Throw error, s') => settled (async (connect_catch error)) s'
        end
    end.

(** *** [disconnect] *)

Definition disconnect (r : State) : Sys -> Task (Result unit) * Sys :=
  fun s =>
    match transport r with
    | None => settled (async return_undefined) s
    | Some t =>
        (Awaiting (fun closed =>
           async (try_catch
                    (lift_result closed ;;
                     setClient None ;;
                     setTransport None ;;
                     setIsConnected false ;;
                     return_undefined)
                    (fun error =>
                       emit (ConsoleError
                               "Error disconnecting from MCP server:" error) ;;
                       return_undefined))),
         log (TransportClose t) s)
    end.

(** *** The protocol operations *)

Definition not_connected : Error := Err "Error" "Not connected".

(** [if (!client) throw new Error('Not connected')] *)
Definition require_client (r : State) : M ClientId :=
  match client r with
  | None => throw not_connected
  | Some c => ret c
  end.

(** A parameter with the default value [{}]: the default is taken when
    the argument is left out and when it is [undefined]. *)
Definition default_args (args : option JsVal) : JsVal :=
  match args with
  | None | Some JUndefined => JObj []
  | Some a => a
  end.

Definition listTools (r : State) : Sys -> Outcome * Sys :=
  async (c <- require_client r ;;
         client_request c {| method := "tools/list"; params := JObj [] |}
           ListToolsResultSchema).

Definition listPrompts (r : State) : Sys -> Outcome * Sys :=
  async (c <- require_client r ;;
         client_request c {| method := "prompts/list"; params := JObj [] |}
           ListPromptsResultSchema).

Definition getPrompt (r : State) (name : string) (args : option JsVal)
  : Sys -> Outcome * Sys :=
  async (c <- require_client r ;;
         client_request c
           {| method := "prompts/get";
              params := JObj [("name", JStr name);
                              ("arguments", default_args args)] |}
           GetPromptResultSchema).

Definition listResources (r : State) : Sys -> Outcome * Sys :=
  async (c <- require_client r ;;
         client_request c {| method := "resources/list"; params := JObj [] |}
           ListResourcesResultSchema).

Definition readResource (r : State) (uri : string) : Sys -> Outcome * Sys :=
  async (c <- require_client r ;;
         client_request c
           {| method := "resources/read";
              params := JObj [("uri", JStr uri)] |}
           ReadResourceResultSchema).

Definition callTool (r : State) (name : string) (args : option JsVal)
  : Sys -> Outcome * Sys :=
  async (c <- require_client r ;;
         client_request c
           {| method := "tools/call";
              params := JObj [("name", JStr name);
                              ("arguments", default_args args)] |}
           CallToolResultSchema).

(** *** The elicitation modal *)

(** What the provider renders below its children when
    [elicitationRequest && elicitationResolver] holds: the message, and the
    [schema], [onSubmit] and [onCancel] given to [ElicitationForm]. *)
Record Modal : Type := mkModal {
  modal_message : JsVal;
  form_schema : JsVal;
  form_onSubmit : JsVal -> M unit;
  form_onCancel : M unit
}.

Definition accept_response (content : JsVal) : JsVal :=
  JObj [("action", JStr "accept"); ("content", content)].

Definition cancel_response : JsVal :=
  JObj [("action", JStr "cancel")].

Definition render_modal (r : State) : option Modal :=
  if truthy (elicitationRequest r) then
    match elicitationResolver r with
    | Some f =>
        let params := get_prop_opt (elicitationRequest r) "params" in
        Some {| modal_message :=
                  js_or (get_prop_opt params "message")
                        (JStr "Request information");
                form_schema := get_prop_opt params "requestedSchema";
                form_onSubmit := fun content =>
                  call_resolver f (accept_response content);
                form_onCancel := call_resolver f cancel_response |}
    | None => None
    end
  else None.

(** The two decisions the modal offers, and the callback each one runs. *)
Inductive Decision : Type :=
| Accept (content : JsVal)
| Cancel.

Definition decision_response (d : Decision) : JsVal :=
  match d with
  | Accept content => accept_response content
  | Cancel => cancel_response
  end.

Definition decide_modal (m : Modal) (d : Decision) : M unit :=
  match d with
  | Accept content => form_onSubmit m content
  | Cancel => form_onCancel m
  end.

(** The modal is rendered: an elicitation is waiting for its decision. *)
Definition slot_active (r : State) : bool :=
  truthy (elicitationRequest r) &&
  match elicitationResolver r with Some _ => true | None => false end.

(** *** The context value and [useMCP] *)

Record MCPContextType : Type := mkContext {
  ctx_client : option ClientId;
  ctx_transport : option TransportId;
  ctx_isConnected : bool;
  ctx_connect : Sys -> Task Handshake * Sys;
  ctx_disconnect : Sys -> Task (Result unit) * Sys;
  ctx_listTools : Sys -> Outcome * Sys;
  ctx_listPrompts : Sys -> Outcome * Sys;
  ctx_getPrompt : string -> option JsVal -> Sys -> Outcome * Sys;
  ctx_listResources : Sys -> Outcome * Sys;
  ctx_readResource : string -> Sys -> Outcome * Sys;
  ctx_callTool : string -> option JsVal -> Sys -> Outcome * Sys;
  ctx_sessionId : option string
}.

(** The argument of [createContext]. *)
Definition MCPContext : MCPContextType :=
  {| ctx_client := None;
     ctx_transport := None;
     ctx_isConnected := false;
     ctx_connect := settled (async return_undefined);
     ctx_disconnect := settled (async return_undefined);
     ctx_listTools := async (ret (Resolves (JObj [])));
     ctx_listPrompts := async (ret (Resolves (JObj [])));
     ctx_getPrompt := fun _ _ => async (ret (Resolves (JObj [])));
     ctx_listResources := async (ret (Resolves (JObj [])));
     ctx_readResource := fun _ => async (ret (Resolves (JObj [])));
     ctx_callTool := fun _ _ => async (ret (Resolves (JObj [])));
     ctx_sessionId := None |}.

(** The [value] that the render with state [r] gives to
    [MCPContext.Provider]. *)
Definition provider_value (r : State) : MCPContextType :=
  {| ctx_client := client r;
     ctx_transport := transport r;
     ctx_isConnected := isConnected r;
     ctx_connect := connect r;
     ctx_disconnect := disconnect r;
     ctx_listTools := listTools r;
     ctx_listPrompts := listPrompts r;
     ctx_getPrompt := getPrompt r;
     ctx_listResources := listResources r;
     ctx_readResource := readResource r;
     ctx_callTool := callTool r;
     ctx_sessionId := sessionId r |}.

(** [useContext(MCPContext)]: the value of the nearest provider above the
    consumer ([Some r], the provider's current render), the default value
    of the context when there is none. *)
Definition useMCP (provider : option State) : MCPContextType :=
  match provider with
  | Some r => provider_value r
  | None => MCPContext
  end.

(** The six protocol operations of a context value, as one call. *)
Inductive Operation : Type :=
| OpListTools
| OpListPrompts
| OpGetPrompt (name : string) (args : option JsVal)
| OpListResources
| OpReadResource (uri : string)
| OpCallTool (name : string) (args : option JsVal).

Definition call_operation (ctx : MCPContextType) (op : Operation)
  : Sys -> Outcome * Sys :=
  match op with
  | OpListTools => ctx_listTools ctx
  | OpListPrompts => ctx_listPrompts ctx
  | OpGetPrompt name args => ctx_getPrompt ctx name args
  | OpListResources => ctx_listResources ctx
  | OpReadResource uri => ctx_readResource ctx uri
  | OpCallTool name args => ctx_callTool ctx name args
  end.

(** [n] calls of [connect], each one the [connect] of the current render,
    none of them awaited. *)
Fixpoint connect_calls (n : nat) (s : Sys) : Sys :=
  match n with
  | 0 => s
  | S n' => connect_calls n' (snd (connect (react s) s))
  end.

End Provider.

(** The transports created so far: the [new StreamableHTTPClientTransport]
    calls of the trace. *)
Definition is_new_transport (e : Effect) : bool :=
  match e with
  | NewTransport _ _ => true
  | _ => false
  end.

Definition transports_created (s : Sys) : nat :=
  length (filter (fun e => is_new_transport e = true) (trace s)).

(** The calls made by [connect] before it awaits the handshake, [n] being
    the first free identity. *)
Definition connect_effects (url : string) (n : nat) : list Effect :=
  [NewClient n; SetClientOnError n;
   NewTransport (S n) url;
   SetTransportOnClose (S n); SetTransportOnError (S n);
   SetNotificationHandler n LoggingMessageNotificationSchema;
   SetNotificationHandler n ResourceListChangedNotificationSchema;
   SetRequestHandler n ElicitRequestSchema;
   ClientConnect n (S n)].

(** The error with which the specification rejects work in flight when the
    session is torn down; the source has no such error. *)
Definition session_closed : Error := Err "Error" "session closed".

(** The events of the trace that are console output. *)
Definition is_console (e : Effect) : bool :=
  match e with
  | ConsoleError _ _ | ConsoleWarn _ _ | ConsoleLog _ _ => true
  | _ => false
  end.

(** [es] appended to the trace. *)
Definition log_all (es : list Effect) (s : Sys) : Sys :=
  {| react := react s; promises := promises s;
     next_id := next_id s; trace := trace s ++ es |}.

(** ** [ElicitationForm] *)

Section ElicitationForm.

(** [new Ajv().compile(schema)]: it throws on a schema it cannot compile,
    and gives the validating function otherwise. *)
Variable ajv_compile : JsVal -> Result (JsVal -> Result bool).

(** [handleSubmit], with [state] the values typed into the form. *)
Definition handleSubmit (schema state : JsVal) (onSubmit : JsVal -> M unit)
  : M unit :=
  try_catch
    (emit (AjvCompile (js_or schema (JObj []))) ;;
     validate <- lift_result (ajv_compile (js_or schema (JObj []))) ;;
     emit (AjvValidate state) ;;
     ok <- lift_result (validate state) ;;
     if (ok : bool) then onSubmit state else onSubmit state)
    (fun _ => onSubmit state).

(** The calls to Ajv that [handleSubmit] makes. *)
Definition ajv_calls (schema state : JsVal) : list Effect :=
  match ajv_compile (js_or schema (JObj [])) with
  | Ok _ => [AjvCompile (js_or schema (JObj [])); AjvValidate state]
  | Throw _ => [AjvCompile (js_or schema (JObj []))]
  end.

End ElicitationForm.

(** ** A session used in the examples

    The provider is mounted and connects to a server that reports the
    session [sess-1]; two protocol requests are in flight when the server
    asks for the user's name. *)
Module Scenario.

Definition url : string := "http://localhost:3000/mcp".

Definition connecting : Sys := snd (connect url initial_state initial).

Definition ready : Sys :=
  snd (run (connect url initial_state) (HandshakeOk (Some "sess-1")) initial).

Definition two_requests : Sys :=
  snd (callTool (react ready) "search" (Some (JObj [("query", JStr "x")]))
         (snd (listTools (react ready) ready))).

Definition ask_name : JsVal :=
  JObj [("method", JStr "elicitation/create");
        ("params",
         JObj [("message", JStr "Your name?");
               ("requestedSchema",
                JObj [("type", JStr "object");
                      ("properties",
                       JObj [("name", JObj [("type", JStr "string")])])])])].

Definition ask_age : JsVal :=
  JObj [("method", JStr "elicitation/create");
        ("params", JObj [("message", JStr "Your age?")])].

Definition asked : Sys := snd (elicit_handler ask_name two_requests).

Definition closed_by_peer : Sys := snd (transport_onclose ready).

Definition typed_name : JsVal := JObj [("name", JStr "Ada")].

(** The modal rendered for [asked]. *)
Definition name_modal : Modal :=
  {| modal_message := JStr "Your name?";
     form_schema :=
       JObj [("type", JStr "object");
             ("properties", JObj [("name", JObj [("type", JStr "string")])])];
     form_onSubmit := fun content =>
       call_resolver (ResolverOf 2) (accept_response content);
     form_onCancel := call_resolver (ResolverOf 2) cancel_response |}.


Definition ajv_rejects : JsVal -> Result (JsVal -> Result bool) :=
  fun _ => Ok (fun _ => Ok false).

(** An [onSubmit] that notes the values it is given and throws. *)
Definition throwing_listener : JsVal -> M unit :=
  fun content =>
    emit (ConsoleLog "submitted" content) ;;
    throw (Err "Error" "listener failed").

End Scenario.

(** The method and the result schema of the six protocol operations. *)
Definition protocol_pairs : list (string * Schema) :=
  [("tools/list", ListToolsResultSchema);
   ("prompts/list", ListPromptsResultSchema);
   ("prompts/get", GetPromptResultSchema);
   ("resources/list", ListResourcesResultSchema);
   ("resources/read", ReadResourceResultSchema);
   ("tools/call", CallToolResultSchema)].

(** A call of the [connect] of each render of [rs], in that order, none of
    them awaited. *)
Fixpoint connect_each (url : string) (rs : list State) (s : Sys) : Sys :=
  match rs with
  | [] => s
  | r :: rest => connect_each url rest (snd (connect url r s))
  end.

(** ** The request dispatcher *)




(** ** The effect run at mount

    [useEffect(() => { connect(); return () => { disconnect(); }; }, [])]:
    the effect runs after the first render, and its clean-up at unmount.
    Both call the closures of the first render, whose state is
    [initial_state]. *)

Definition mount_effect (url : string) : Sys -> Task Handshake * Sys :=
  connect url initial_state.

Definition unmount_cleanup : Sys -> Task (Result unit) * Sys :=
  disconnect initial_state.

(** ** The fields of [ElicitationForm] *)

(** The own enumerable properties of a value, in the order of
    [Object.keys]: the fields of an object (an object holds a key once),
    the indices of an array or of a string, and none for the rest.  For
    each [k] of [Object.keys(v)], [v[k]] is the value paired with [k]. *)
Definition own_entries (v : JsVal) : list (string * JsVal) :=
  match v with
  | JObj fields => fields
  | JArr items => imap (fun i x => (pretty i, x)) items
  | JStr s =>
      imap (fun i c => (pretty i, JStr (String c EmptyString)))
           (String.list_ascii_of_string s)
  | JUndefined | JNull | JBool _ | JNum _ => []
  end.




(** The keys of an object that are array indices (canonical numeric
    strings below 2^32 - 1) come first, in ascending order; the other keys
    follow in the order in which they were added. *)
Definition digit_value (c : Ascii.ascii) : option N :=
  let n := Ascii.N_of_ascii c in
  if ((48 <=? n) && (n <=? 57))%N then Some (n - 48)%N else None.

Fixpoint digits_value (s : string) (acc : N) : option N :=
  match s with
  | EmptyString => Some acc
  | String c rest =>
      match digit_value c with
      | Some d => digits_value rest (10 * acc + d)%N
      | None => None
      end
  end.

Definition array_index (k : string) : option N :=
  match k with
  | EmptyString => None
  | String c rest =>
      if (Ascii.N_of_ascii c =? 48)%N && negb (String.eqb rest "") then None
      else
        match digits_value k 0 with
        | Some n => if (n <? 4294967295)%N then Some n else None
        | None => None
        end
  end.

Definition has_key (k : string) (fields : list (string * JsVal)) : bool :=
  existsb (fun field => String.eqb k (fst field)) fields.

(** The value of an existing key is replaced where the key is. *)
Fixpoint obj_replace (k : string) (v : JsVal) (fields : list (string * JsVal))
  : list (string * JsVal) :=
  match fields with
  | [] => []
  | (k', v') :: rest =>
      if String.eqb k k' then (k, v) :: rest
      else (k', v') :: obj_replace k v rest
  end.

(** A new array index [n] goes to its place among the indices. *)
Fixpoint obj_insert_index (n : N) (k : string) (v : JsVal)
    (fields : list (string * JsVal)) : list (string * JsVal) :=
  match fields with
  | [] => [(k, v)]
  | (k', v') :: rest =>
      match array_index k' with
      | Some n' =>
          if (n' <? n)%N then (k', v') :: obj_insert_index n k v rest
          else (k, v) :: fields
      | None => (k, v) :: fields
      end
  end.

(** A new key: an array index goes among the indices, any other key at
    the end. *)
Definition obj_add (k : string) (v : JsVal) (fields : list (string * JsVal))
  : list (string * JsVal) :=
  match array_index k with
  | Some n => obj_insert_index n k v fields
  | None => fields ++ [(k, v)]
  end.

(** [{ ...prev, [name]: value }] on the fields of [prev]. *)
Definition obj_set (k : string) (v : JsVal) (fields : list (string * JsVal))
  : list (string * JsVal) :=
  if has_key k fields then obj_replace k v fields else obj_add k v fields.

(** The update made by [onChange] of the input [name]:
    [prev => ({ ...prev, [name]: e.target.value })]. *)
Definition onChange (name value : string) (prev : JsVal) : JsVal :=
  JObj (obj_set name (JStr value) (own_entries prev)).


(** [state[name] ?? ''], the value shown in the input [name]. *)
Definition input_value (state : JsVal) (name : string) : Result JsVal :=
  match get_prop state name with
  | Ok v => Ok (js_coalesce v (JStr ""))
  | Throw e => Throw e
  end.

(** ** The provider as a transition system

    What can happen to a mounted provider, one event at a time.  A
    configuration holds the system, the states of the renders made so far
    (a consumer or the DOM may still hold the closures of any of them) and
    the [async] functions that are suspended at their [await].  The
    relation allows every order of events: a handler may run as soon as it
    is registered, and the closures of an old render may be called at any
    time.  What holds in every configuration holds in every run of the
    provider. *)

Inductive Suspended : Type :=
| AwaitsHandshake (k : Handshake -> Sys -> Outcome * Sys)
| AwaitsClose (k : Result unit -> Sys -> Outcome * Sys)
| AwaitsRequest (k : Result JsVal -> Sys -> Outcome * Sys).

Record Config : Type := mkConfig {
  sys : Sys;
  renders : list State;
  pool : list Suspended
}.

(** The provider after its first render. *)
Definition mounted : Config :=
  {| sys := initial; renders := [initial_state]; pool := [] |}.

(** A task that awaits joins the suspended functions. *)
Definition suspend {I} (wrap : (I -> Sys -> Outcome * Sys) -> Suspended)
    (t : Task I) (waiting : list Suspended) : list Suspended :=
  match t with
  | Settled _ => waiting
  | Awaiting k => wrap k :: waiting
  end.

Section Machine.

Variable MCP_SERVER_URL : string.
Variable ajv_compile : JsVal -> Result (JsVal -> Result bool).

Inductive step : Config -> Config -> Prop :=
(* React renders the component again, with the current state. *)
| step_render c :
    step c {| sys := sys c; renders := react (sys c) :: renders c;
              pool := pool c |}
(* [connect()] of some render is called (the effect at mount included). *)
| step_connect c r :
    r ∈ renders c ->
    step c {| sys := snd (connect MCP_SERVER_URL r (sys c));
              renders := renders c;
              pool := suspend AwaitsHandshake
                        (fst (connect MCP_SERVER_URL r (sys c))) (pool c) |}
(* The handshake awaited by a [connect()] settles. *)
| step_handshake c k h before after :
    pool c = before ++ AwaitsHandshake k :: after ->
    step c {| sys := snd (k h (sys c)); renders := renders c;
              pool := before ++ after |}
(* [disconnect()] of some render is called (the clean-up included). *)
| step_disconnect c r :
    r ∈ renders c ->
    step c {| sys := snd (disconnect r (sys c));
              renders := renders c;
              pool := suspend AwaitsClose (fst (disconnect r (sys c)))
                        (pool c) |}
(* The [transport.close()] awaited by a [disconnect()] settles. *)
| step_closed c k closed before after :
    pool c = before ++ AwaitsClose k :: after ->
    step c {| sys := snd (k closed (sys c)); renders := renders c;
              pool := before ++ after |}
(* A protocol operation of some render is called. *)
| step_operation c r op :
    r ∈ renders c ->
    step c {| sys := snd (call_operation (provider_value MCP_SERVER_URL r)
                            op (sys c));
              renders := renders c; pool := pool c |}
(* A transport calls its [onclose]. *)
| step_transport_close c t :
    SetTransportOnClose t ∈ trace (sys c) ->
    step c {| sys := snd (transport_onclose (sys c));
              renders := renders c; pool := pool c |}
(* A transport calls its [onerror]. *)
| step_transport_error c t err :
    SetTransportOnError t ∈ trace (sys c) ->
    step c {| sys := snd (transport_onerror err (sys c));
              renders := renders c; pool := pool c |}
(* A client calls its [onerror]. *)
| step_client_error c cl error :
    SetClientOnError cl ∈ trace (sys c) ->
    step c {| sys := snd (client_onerror error (sys c));
              renders := renders c; pool := pool c |}
(* A logging notification arrives. *)
| step_logging c cl notification :
    SetNotificationHandler cl LoggingMessageNotificationSchema
      ∈ trace (sys c) ->
    step c {| sys := snd (logging_handler notification (sys c));
              renders := renders c; pool := pool c |}
(* A "resource list changed" notification arrives. *)
| step_resources_changed c cl notification :
    SetNotificationHandler cl ResourceListChangedNotificationSchema
      ∈ trace (sys c) ->
    step c {| sys := snd (resourceListChanged_handler cl notification (sys c));
              renders := renders c;
              pool := suspend AwaitsRequest
                        (fst (resourceListChanged_handler cl notification
                                (sys c)))
                        (pool c) |}
(* The request awaited by that handler settles. *)
| step_request_settled c k res before after :
    pool c = before ++ AwaitsRequest k :: after ->
    step c {| sys := snd (k res (sys c)); renders := renders c;
              pool := before ++ after |}
(* An elicitation request arrives. *)
| step_elicit c cl request :
    SetRequestHandler cl ElicitRequestSchema ∈ trace (sys c) ->
    step c {| sys := snd (elicit_handler request (sys c));
              renders := renders c; pool := pool c |}
(* The form of the modal of some render is submitted. *)
| step_submit c r m content :
    r ∈ renders c ->
    render_modal r = Some m ->
    step c {| sys := snd (handleSubmit ajv_compile (form_schema m) content
                            (form_onSubmit m) (sys c));
              renders := renders c; pool := pool c |}
(* The modal of some render is cancelled. *)
| step_cancel c r m :
    r ∈ renders c ->
    render_modal r = Some m ->
    step c {| sys := snd (form_onCancel m (sys c));
              renders := renders c; pool := pool c |}.

(** The configurations a mounted provider can be in. *)
Definition reachable (c : Config) : Prop := rtc step mounted c.

End Machine.

(** *** What holds of the state in every configuration *)

(** The client and the transport are stored together, and [isConnected]
    is only set with them. *)
Definition connection_consistent (r : State) : Prop :=
  (client r = None <-> transport r = None) /\
  (isConnected r = true -> client r <> None).

(** The stored resolver is the resolver of a pending promise; no promise
    is rejected; the promises are older than the next identity. *)
Definition slot_consistent (s : Sys) : Prop :=
  (forall p, elicitationResolver (react s) = Some (ResolverOf p) ->
             promises s !! p = Some Pending) /\
  (forall p e, promises s !! p <> Some (Rejected e)) /\
  (forall p, is_Some (promises s !! p) -> p < next_id s).

Definition consistent (s : Sys) : Prop :=
  connection_consistent (react s) /\ slot_consistent s.

(** A suspended function keeps the state consistent when it resumes. *)
Definition keeps_consistent (w : Suspended) : Prop :=
  match w with
  | AwaitsHandshake k => forall h s, consistent s -> consistent (snd (k h s))
  | AwaitsClose k => forall x s, consistent s -> consistent (snd (k x s))
  | AwaitsRequest k => forall x s, consistent s -> consistent (snd (k x s))
  end.

(** The session of [Scenario], one event at a time: the effect at mount
    calls [connect]; the handshake succeeds; React renders the connected
    state; the server asks for the user's name. *)
Module Steps.

Definition connecting : Config :=
  {| sys := Scenario.connecting;
     renders := [initial_state];
     pool := [AwaitsHandshake
                (fun h => async (try_catch (connect_connected 0 1 h)
                                           connect_catch))] |}.

Definition ready : Config :=
  {| sys := Scenario.ready; renders := [initial_state]; pool := [] |}.

Definition rendered : Config :=
  {| sys := Scenario.ready;
     renders := [react Scenario.ready; initial_state];
     pool := [] |}.

Definition asked : Config :=
  {| sys := snd (elicit_handler Scenario.ask_name Scenario.ready);
     renders := [react Scenario.ready; initial_state];
     pool := [] |}.

End Steps.

(** What is proved of every configuration: the state is consistent, and
    it stays so when a suspended function resumes. *)
Definition invariant (c : Config) : Prop :=
  consistent (sys c) /\ Forall keeps_consistent (pool c).

(** * Properties *)

(** ** Basic facts about statements *)

(** Runs the statements of the goal. *)
Ltac exec :=
  cbv [run resume settled async try_catch bind ret throw lift_result modify
       emit log log_all with_react fresh return_undefined client_request
       new_promise setClient setTransport setIsConnected
       setElicitationRequest setElicitationResolver setSessionId];
  simpl.

(** A call of a resolver never throws. *)
Lemma call_resolver_ok f res s : fst (call_resolver f res s) = Ok tt.
Proof. destruct f; reflexivity. Qed.

(** What a call of the resolver of promise [p] does to the promise. *)
Lemma call_resolver_pending p res s :
  promises s !! p = Some Pending ->
  promises (snd (call_resolver (ResolverOf p) res s)) !! p
  = Some (Fulfilled res).
Proof.
  intros Hp. unfold call_resolver, resolve_promise, bind, modify; simpl.
  rewrite Hp; simpl. apply lookup_insert_eq.
Qed.




(** The modal is rendered exactly when the slot is active. *)
Lemma render_modal_active r :
  slot_active r = true <-> exists m, render_modal r = Some m.
Proof.
  unfold slot_active, render_modal.
  destruct (truthy (elicitationRequest r)), (elicitationResolver r); simpl;
    split; try discriminate; eauto; intros [m Hm]; discriminate.
Qed.

(** The callbacks of a rendered modal are calls of the stored resolver. *)
Lemma render_modal_callbacks r m f :
  render_modal r = Some m ->
  elicitationResolver r = Some f ->
  forall d, decide_modal m d = call_resolver f (decision_response d).
Proof.
  unfold render_modal. intros Hm Hf. rewrite Hf in Hm.
  destruct (truthy (elicitationRequest r)); [| discriminate].
  injection Hm as <-. intros [content |]; reflexivity.
Qed.

(** ** The elicitation slot *)

(** C1, as the claim states it, fails: in the session [Scenario.asked] the
    question [ask_name] is waiting for its decision when [ask_age] arrives.
    The handler does not reject the second request: it returns a new
    pending promise, and the slot now holds [ask_age] and the resolver of
    the new promise, while the promise of [ask_name] is still pending. *)
Lemma elicit_second_offer_overwrites_slot :
  slot_active (react Scenario.asked) = true /\
  elicitationRequest (react Scenario.asked) = Scenario.ask_name /\
  elicitationResolver (react Scenario.asked) = Some (ResolverOf 2) /\
  fst (elicit_handler Scenario.ask_age Scenario.asked) = FollowsPromise 3 /\
  (forall e, fst (elicit_handler Scenario.ask_age Scenario.asked) <> Rejects e) /\
  react (snd (elicit_handler Scenario.ask_age Scenario.asked))
    <> react Scenario.asked /\
  elicitationRequest (react (snd (elicit_handler Scenario.ask_age Scenario.asked)))
    = Scenario.ask_age /\
  elicitationResolver (react (snd (elicit_handler Scenario.ask_age Scenario.asked)))
    = Some (ResolverOf 3) /\
  promises (snd (elicit_handler Scenario.ask_age Scenario.asked)) !! 2
    = Some Pending.
Proof.
  repeat split; try (vm_compute; reflexivity);
    vm_compute; discriminate.
Qed.

(** C1 (amended): an elicitation request that arrives while a slot is
    active is accepted, not refused.  The handler raises no error and
    returns a suspended computation (a fresh pending promise); the slot
    holds the new request and the resolver of the new promise in place of
    the earlier ones; nothing is queued (the slot is the only place where a
    request is kept), no other promise is settled, and nothing is sent or
    logged. *)
Theorem elicit_handler_replaces_active_slot (request : JsVal) (s : Sys) :
  slot_active (react s) = true ->
  let s' := snd (elicit_handler request s) in
  fst (elicit_handler request s) = FollowsPromise (next_id s) /\
  elicitationRequest (react s') = request /\
  elicitationResolver (react s') = Some (ResolverOf (next_id s)) /\
  promises s' = <[next_id s := Pending]> (promises s) /\
  (forall p, p <> next_id s -> promises s' !! p = promises s !! p) /\
  client (react s') = client (react s) /\
  transport (react s') = transport (react s) /\
  isConnected (react s') = isConnected (react s) /\
  sessionId (react s') = sessionId (react s) /\
  trace s' = trace s.
Proof.
  intros _ s'. subst s'. destruct s as [st ps n tr]; simpl.
  repeat split.
  intros p Hp. by rewrite lookup_insert_ne.
Qed.

Lemma elicit_handler_replaces_active_slot_witness :
  slot_active (react Scenario.asked) = true /\
  elicitationRequest
    (react (snd (elicit_handler Scenario.ask_age Scenario.asked)))
  = Scenario.ask_age.
Proof.
  split; [reflexivity |].
  apply (elicit_handler_replaces_active_slot Scenario.ask_age Scenario.asked).
  reflexivity.
Defined.

(** ** [disconnect] *)

(** C2, as the claim states it, fails: in the session [Scenario.asked]
    (two requests in flight, the question [ask_name] undecided) a call of
    [disconnect] whose [transport.close()] succeeds leaves the promise of
    the elicitation pending, not rejected, and leaves the slot in place.
    The only call it makes is [transport.close()].  And when
    [transport.close()] fails, the session is not left disconnected: the
    state is as it was. *)
Lemma disconnect_leaves_elicitation_pending :
  let s' := snd (run (disconnect (react Scenario.asked)) (Ok tt) Scenario.asked) in
  let s'' := snd (run (disconnect (react Scenario.asked))
                    (Throw (Err "Error" "close failed")) Scenario.asked) in
  promises Scenario.asked !! 2 = Some Pending /\
  promises s' !! 2 = Some Pending /\
  promises s' !! 2 <> Some (Rejected session_closed) /\
  slot_active (react s') = true /\
  isConnected (react s') = false /\
  trace s' = trace Scenario.asked ++ [TransportClose 1] /\
  isConnected (react s'') = true /\
  react s'' = react Scenario.asked.
Proof.
  repeat split; try (vm_compute; reflexivity).
  vm_compute; discriminate.
Qed.

(** C2 (amended): for every session that holds a transport, with any
    elicitation slot, a call of [disconnect] whose [transport.close()]
    succeeds leaves the session disconnected ([client] and [transport]
    null, [isConnected] false) and resolves; it does not touch the
    elicitation slot: the request and the resolver stay where they are and
    no promise is settled, so the suspended computation of the slot stays
    pending.  [disconnect] itself makes one call, [transport.close()], and
    settles no request (what happens to the requests in flight is left to
    the client). *)
Theorem disconnect_clears_connection_only (r : State) (t : nat) (s : Sys) :
  transport r = Some t ->
  let s' := snd (run (disconnect r) (Ok tt) s) in
  fst (run (disconnect r) (Ok tt) s) = Resolves JUndefined /\
  client (react s') = None /\
  transport (react s') = None /\
  isConnected (react s') = false /\
  elicitationRequest (react s') = elicitationRequest (react s) /\
  elicitationResolver (react s') = elicitationResolver (react s) /\
  promises s' = promises s /\
  trace s' = trace s ++ [TransportClose t].
Proof.
  intros Ht s'. subst s'. unfold run, disconnect. rewrite Ht.
  destruct s as [st ps n tr]; simpl. repeat split.
Qed.

Lemma disconnect_clears_connection_only_witness :
  transport (react Scenario.asked) = Some 1 /\
  promises (snd (run (disconnect (react Scenario.asked)) (Ok tt) Scenario.asked))
  = promises Scenario.asked.
Proof.
  split; [reflexivity |].
  apply (disconnect_clears_connection_only (react Scenario.asked) 1
           Scenario.asked).
  reflexivity.
Defined.

(** When [transport.close()] fails, [disconnect] reports the error on the
    console, resolves, and leaves the state as it was. *)
Lemma disconnect_close_error_logged (r : State) (t : nat) (e : Error) (s : Sys) :
  transport r = Some t ->
  run (disconnect r) (Throw e) s
  = (Resolves JUndefined,
     log_all [TransportClose t;
              ConsoleError "Error disconnecting from MCP server:" e] s).
Proof.
  intros Ht. unfold run, disconnect. rewrite Ht.
  destruct s as [st ps n tr]; exec.
  by rewrite <- app_assoc.
Qed.

(** [disconnect] without a transport does nothing. *)
Lemma disconnect_without_transport (r : State) (closed : Result unit) (s : Sys) :
  transport r = None ->
  run (disconnect r) closed s = (Resolves JUndefined, s).
Proof. intros Ht. unfold run, disconnect. by rewrite Ht. Qed.

(** ** [connect] *)

Lemma connect_setup_eq url s :
  connect_setup url s
  = (Ok (next_id s, S (next_id s)),
     {| react := react s; promises := promises s;
        next_id := S (S (next_id s));
        trace := trace s ++ connect_effects url (next_id s) |}).
Proof.
  destruct s as [st ps n tr]; unfold connect_setup, connect_effects; exec.
  repeat rewrite <- app_assoc. reflexivity.
Qed.

(** C3, as the claim states it, fails: the first [connect] of a mounted
    provider, with a handshake that fails with [e], returns a promise that
    is fulfilled with [undefined]; it is not rejected with [e] or with any
    other error. *)
Lemma connect_failure_not_surfaced :
  let e := Err "Error" "Failed to fetch" in
  fst (run (connect Scenario.url initial_state) (HandshakeFails e) initial)
  = Resolves JUndefined /\
  fst (run (connect Scenario.url initial_state) (HandshakeFails e) initial)
  <> Rejects e /\
  forall e', fst (run (connect Scenario.url initial_state) (HandshakeFails e) initial)
             <> Rejects e'.
Proof.
  repeat split; try (vm_compute; reflexivity);
    try intros e'; vm_compute; discriminate.
Qed.

(** C3 (amended): for every [connect] (of a render without a client) whose
    handshake fails, the error is caught and reported on the console, not
    surfaced: the promise returned by [connect] resolves.  The session is
    left not connected, with the client and the transport references
    cleared; one client and one transport were created and one handshake
    was attempted: there is no retry. *)
Theorem connect_handshake_failure_absorbed
    (url : string) (r : State) (e : Error) (s : Sys) :
  client r = None ->
  let s' := snd (run (connect url r) (HandshakeFails e) s) in
  fst (run (connect url r) (HandshakeFails e) s) = Resolves JUndefined /\
  client (react s') = None /\
  transport (react s') = None /\
  isConnected (react s') = false /\
  trace s' = trace s ++ connect_effects url (next_id s)
               ++ [ConsoleError "Failed to connect to MCP server:" e] /\
  transports_created s' = S (transports_created s).
Proof.
  intros Hc s'. subst s'. unfold run, connect. rewrite Hc.
  rewrite connect_setup_eq.
  destruct s as [st ps n tr]; unfold connect_catch; exec.
  repeat split.
  - by rewrite <- app_assoc.
  - unfold transports_created; simpl.
    rewrite !filter_app, !length_app. simpl. lia.
Qed.

Lemma connect_handshake_failure_absorbed_witness :
  client initial_state = None /\
  fst (run (connect Scenario.url initial_state)
         (HandshakeFails (Err "Error" "Failed to fetch")) initial)
  = Resolves JUndefined.
Proof.
  split; [reflexivity |].
  apply (connect_handshake_failure_absorbed Scenario.url initial_state
           (Err "Error" "Failed to fetch") initial).
  reflexivity.
Defined.

(** C4, as the claim states it, fails, in both states it names.  In
    [Scenario.connecting] the first [connect] has created one transport and
    awaits its handshake, and no client is stored yet: a second [connect]
    is not a no-op there, it is suspended at a handshake of its own, having
    created a second client and a second transport.  In [Scenario.ready]
    the session is connected, and the [connect] of the first render (the
    one the effect holds) still creates a second transport. *)
Lemma connect_while_connecting_creates_second_transport :
  let second := connect Scenario.url (react Scenario.connecting)
                  Scenario.connecting in
  let stale := connect Scenario.url initial_state Scenario.ready in
  client (react Scenario.connecting) = None /\
  transports_created Scenario.connecting = 1 /\
  (forall o, fst second <> Settled o) /\
  snd second <> Scenario.connecting /\
  trace (snd second)
  = connect_effects Scenario.url 0 ++ connect_effects Scenario.url 2 /\
  transports_created (snd second) = 2 /\
  transports_created (connect_calls Scenario.url 2 initial) = 2 /\
  isConnected (react Scenario.ready) = true /\
  client (react Scenario.ready) = Some 0 /\
  transports_created Scenario.ready = 1 /\
  (forall o, fst stale <> Settled o) /\
  transports_created (snd stale) = 2.
Proof.
  repeat split; try (vm_compute; reflexivity).
  - intros o. vm_compute. discriminate.
  - intros H. apply (f_equal next_id) in H. vm_compute in H. discriminate.
  - intros o. vm_compute. discriminate.
Qed.

(** C4 (amended): [connect] is idempotent for each render in which a
    client is stored (every render made once the session is ready): a call
    of the [connect] of such a render returns at once, as a no-op, in
    whatever state the session is when the call is made, and every
    sequence of such calls leaves the session as it is and creates no
    transport.  In particular, while a client is stored, any number of
    calls of the [connect] of the current render does nothing. *)
Theorem connect_noop_while_ready (url : string) (rs : list State) (s : Sys) :
  Forall (fun r => client r <> None) rs ->
  (forall r s0, r ∈ rs ->
     connect url r s0 = (Settled (Resolves JUndefined), s0)) /\
  connect_each url rs s = s /\
  transports_created (connect_each url rs s) = transports_created s /\
  (react s ∈ rs -> forall n, connect_calls url n s = s).
Proof.
  intros Hrs.
  assert (Hone : forall r s0, r ∈ rs ->
             connect url r s0 = (Settled (Resolves JUndefined), s0)).
  { intros r s0 Hr. rewrite Forall_forall in Hrs. specialize (Hrs r Hr).
    unfold connect. destruct (client r); [reflexivity | done]. }
  assert (Hall : connect_each url rs s = s).
  { clear Hone. induction Hrs as [| r rest Hr _ IH]; [reflexivity |].
    cbn [connect_each]. unfold connect at 1.
    destruct (client r); [exact IH | done]. }
  split; [exact Hone |]. split; [exact Hall |].
  split; [by rewrite Hall |].
  intros Hcur n. induction n as [| n IH]; [reflexivity |].
  cbn [connect_calls]. rewrite (Hone _ _ Hcur). exact IH.
Qed.

Lemma connect_noop_while_ready_witness :
  Forall (fun r => client r <> None)
         [react Scenario.ready; react Scenario.asked; react Scenario.ready] /\
  connect_each Scenario.url
    [react Scenario.ready; react Scenario.asked; react Scenario.ready]
    Scenario.closed_by_peer
  = Scenario.closed_by_peer.
Proof.
  assert (H : Forall (fun r => client r <> None)
                [react Scenario.ready; react Scenario.asked;
                 react Scenario.ready]).
  { repeat constructor; discriminate. }
  split; [exact H |].
  apply (connect_noop_while_ready Scenario.url
           [react Scenario.ready; react Scenario.asked; react Scenario.ready]
           Scenario.closed_by_peer H).
Defined.

(** A handshake that succeeds stores the client, the transport and the
    session identifier the transport reports. *)
Lemma connect_handshake_success
    (url : string) (r : State) (sid : option string) (s : Sys) :
  client r = None ->
  let s' := snd (run (connect url r) (HandshakeOk sid) s) in
  fst (run (connect url r) (HandshakeOk sid) s) = Resolves JUndefined /\
  client (react s') = Some (next_id s) /\
  transport (react s') = Some (S (next_id s)) /\
  isConnected (react s') = true /\
  sessionId (react s') = sid /\
  trace s' = trace s ++ connect_effects url (next_id s).
Proof.
  intros Hc s'. subst s'. unfold run, connect. rewrite Hc.
  rewrite connect_setup_eq.
  destruct s as [st ps n tr]; unfold connect_connected; exec.
  repeat split.
Qed.

(** ** Close of the transport *)

(** C5, as the claim states it, fails: when the transport of the ready
    session [Scenario.ready] closes by itself, [newTransport.onclose]
    leaves the client and the transport references in place, where
    [disconnect] clears them: the two do not end in the same state. *)
Lemma transport_close_keeps_client_and_transport :
  let closed := snd (transport_onclose Scenario.ready) in
  let disconnected :=
    snd (run (disconnect (react Scenario.ready)) (Ok tt) Scenario.ready) in
  client (react closed) = Some 0 /\
  transport (react closed) = Some 1 /\
  client (react disconnected) = None /\
  transport (react disconnected) = None /\
  react closed <> react disconnected.
Proof.
  repeat split; try (vm_compute; reflexivity).
  vm_compute. discriminate.
Qed.

(** C5 (amended): for every close event of the transport, the handler
    [onclose] moves the session to disconnected in one step, with no state
    in between: [isConnected] becomes false and the session identifier is
    cleared.  It rejects nothing: the elicitation slot and every promise
    are left as they are, and no call is made to the client, the transport
    or the console. *)
Theorem transport_onclose_marks_disconnected (s : Sys) :
  let s' := snd (transport_onclose s) in
  fst (transport_onclose s) = Ok tt /\
  isConnected (react s') = false /\
  sessionId (react s') = None /\
  elicitationRequest (react s') = elicitationRequest (react s) /\
  elicitationResolver (react s') = elicitationResolver (react s) /\
  promises s' = promises s /\
  trace s' = trace s.
Proof. destruct s as [st ps n tr]. repeat split. Qed.

(** ** The protocol operations *)




(** With a client stored, an operation hands one request to it and
    returns the client's promise. *)
Lemma callTool_with_client
    (r : State) (c : nat) (name : string) (args : option JsVal) (s : Sys) :
  client r = Some c ->
  callTool r name args s
  = (FollowsRequest c
       {| method := "tools/call";
          params := JObj [("name", JStr name);
                          ("arguments", default_args args)] |}
       CallToolResultSchema,
     log (ClientRequest c
            {| method := "tools/call";
               params := JObj [("name", JStr name);
                               ("arguments", default_args args)] |}
            CallToolResultSchema) s).
Proof.
  intros Hc. unfold callTool, require_client. rewrite Hc. reflexivity.
Qed.

(** ** [ElicitationForm] and the decision *)

(** With a callback that does not throw, [handleSubmit] calls it once, with
    the values of the form, whatever Ajv does. *)
Lemma handleSubmit_calls_onSubmit
    (ajv_compile : JsVal -> Result (JsVal -> Result bool))
    (schema state : JsVal) (onSubmit : JsVal -> M unit) (s : Sys) :
  (forall content s0, fst (onSubmit content s0) = Ok tt) ->
  handleSubmit ajv_compile schema state onSubmit s
  = onSubmit state (log_all (ajv_calls ajv_compile schema state) s).
Proof.
  intros Hok. unfold handleSubmit, ajv_calls.
  destruct s as [st ps n tr].
  destruct (ajv_compile (js_or schema (JObj []))) as [validate | e] eqn:Hc;
    exec.
  - rewrite <- app_assoc; simpl.
    destruct (validate state) as [[|] | e]; simpl;
      try reflexivity;
      match goal with
      | |- context [onSubmit state ?s0] =>
          specialize (Hok state s0);
          destruct (onSubmit state s0) as [[[] | e'] s1];
          [reflexivity | discriminate]
      end.
  - match goal with
    | |- context [onSubmit state ?s0] =>
        specialize (Hok state s0);
        destruct (onSubmit state s0) as [[[] | e'] s1];
        [reflexivity | discriminate]
    end.
Qed.

(** C7: the values of the form are given to Ajv with the requested schema
    of the request, and the decision is fail-open: whether the validating
    function accepts, rejects or throws, or the schema cannot be compiled,
    [handleSubmit] returns normally and resolves the elicitation with
    [{ action: 'accept', content }], [content] being the values as typed. *)
Theorem handleSubmit_fail_open
    (ajv_compile : JsVal -> Result (JsVal -> Result bool))
    (r : State) (m : Modal) (p : nat) (state : JsVal) (s : Sys) :
  render_modal r = Some m ->
  elicitationResolver r = Some (ResolverOf p) ->
  promises s !! p = Some Pending ->
  let submit := handleSubmit ajv_compile (form_schema m) state (form_onSubmit m) in
  form_schema m
  = get_prop_opt (get_prop_opt (elicitationRequest r) "params") "requestedSchema" /\
  submit s
  = call_resolver (ResolverOf p)
      (JObj [("action", JStr "accept"); ("content", state)])
      (log_all (ajv_calls ajv_compile (form_schema m) state) s) /\
  fst (submit s) = Ok tt /\
  promises (snd (submit s)) !! p
  = Some (Fulfilled (JObj [("action", JStr "accept"); ("content", state)])) /\
  (forall q, q <> p -> promises (snd (submit s)) !! q = promises s !! q) /\
  trace (snd (submit s))
  = trace s ++ ajv_calls ajv_compile (form_schema m) state /\
  (exists calls,
      ajv_calls ajv_compile (form_schema m) state
      = AjvCompile (js_or (form_schema m) (JObj [])) :: calls /\
      (calls = [] \/ calls = [AjvValidate state])).
Proof.
  intros Hm Hf Hp submit. subst submit.
  pose proof (render_modal_callbacks r m _ Hm Hf) as Hcb.
  assert (Hsub : forall content,
             form_onSubmit m content
             = call_resolver (ResolverOf p) (accept_response content)).
  { intros content. exact (Hcb (Accept content)). }
  rewrite handleSubmit_calls_onSubmit
    by (intros content s0; rewrite Hsub; apply call_resolver_ok).
  rewrite Hsub.
  split.
  { unfold render_modal in Hm. rewrite Hf in Hm.
    destruct (truthy (elicitationRequest r)); [| discriminate].
    by injection Hm as <-. }
  split; [reflexivity |].
  split; [apply call_resolver_ok |].
  split; [by apply (call_resolver_pending p (accept_response state)) |].
  split.
  { intros q Hq. unfold call_resolver, resolve_promise. exec. rewrite Hp; simpl.
    by rewrite lookup_insert_ne. }
  split.
  { unfold call_resolver, resolve_promise. exec. rewrite Hp. reflexivity. }
  unfold ajv_calls.
  destruct (ajv_compile (js_or (form_schema m) (JObj []))); eauto.
Qed.

Lemma handleSubmit_fail_open_witness :
  render_modal (react Scenario.asked) = Some Scenario.name_modal /\
  elicitationResolver (react Scenario.asked) = Some (ResolverOf 2) /\
  promises Scenario.asked !! 2 = Some Pending /\
  promises
    (snd (handleSubmit Scenario.ajv_rejects
            (form_schema Scenario.name_modal) Scenario.typed_name
            (form_onSubmit Scenario.name_modal) Scenario.asked)) !! 2
  = Some (Fulfilled (JObj [("action", JStr "accept");
                           ("content", JObj [("name", JStr "Ada")])])).
Proof.
  split; [reflexivity |]. split; [reflexivity |]. split; [reflexivity |].
  apply (handleSubmit_fail_open Scenario.ajv_rejects (react Scenario.asked)
           Scenario.name_modal 2 Scenario.typed_name Scenario.asked
           eq_refl eq_refl eq_refl).
Defined.




(** ** Notifications *)

(** C8: the handler of the "resource list changed" notification issues
    exactly one request, [resources/list], and awaits it.  Whatever the
    request settles to, the handler resolves: a failure is caught and
    reported with [console.warn], never propagated; the handler then
    writes one line on the console and changes nothing else, so a ready
    session remains ready. *)
Theorem resource_list_changed_one_request
    (newClient : nat) (notification : JsVal) (s : Sys) :
  exists k,
    resourceListChanged_handler newClient notification s
    = (Awaiting k,
       log (ClientRequest newClient
              {| method := "resources/list"; params := JObj [] |}
              ListResourcesResultSchema) s) /\
    (forall e s1,
        k (Throw e) s1
        = (Resolves JUndefined,
           log (ConsoleWarn "Failed to list resources after notification" e)
             s1)) /\
    (forall res s1, exists ev,
        is_console ev = true /\
        k res s1 = (Resolves JUndefined, log ev s1) /\
        react (snd (k res s1)) = react s1 /\
        promises (snd (k res s1)) = promises s1).
Proof.
  unfold resourceListChanged_handler. exec.
  eexists. split; [reflexivity |]. split.
  - intros e s1. reflexivity.
  - intros [res | e] s1.
    + unfold resources_count. exec.
      destruct res; simpl;
        eexists; (split; [| split; [reflexivity | split; reflexivity]]);
        reflexivity.
    + eexists. split; [| split; [reflexivity | split; reflexivity]].
      reflexivity.
Qed.

(** ** The default context *)

(** C10: a consumer outside of any [MCPProvider] gets the default value of
    the context: [client] and [transport] are null, [isConnected] is
    false, [connect] and [disconnect] resolve to [undefined], and every
    protocol operation resolves to an empty object; none of them throws,
    rejects or changes anything. *)
Theorem default_context_never_throws (url : string) :
  let ctx := useMCP url None in
  ctx_client ctx = None /\
  ctx_transport ctx = None /\
  ctx_isConnected ctx = false /\
  (forall s, ctx_connect ctx s = (Settled (Resolves JUndefined), s)) /\
  (forall s, ctx_disconnect ctx s = (Settled (Resolves JUndefined), s)) /\
  (forall op s, call_operation ctx op s = (Resolves (JObj []), s)).
Proof.
  simpl. repeat split. intros op s. destruct op; reflexivity.
Qed.

(** * Further properties of the provider *)

(** ** The life of a connection *)

Lemma connect_handshake_success_witness :
  client initial_state = None /\
  sessionId (react (snd (run (connect Scenario.url initial_state)
                           (HandshakeOk (Some "sess-1")) initial)))
  = Some "sess-1".
Proof.
  split; [reflexivity |].
  apply (connect_handshake_success Scenario.url initial_state
           (Some "sess-1") initial).
  reflexivity.
Defined.

Lemma disconnect_without_transport_witness :
  transport initial_state = None /\
  run (disconnect initial_state) (Throw (Err "Error" "never awaited"))
    Scenario.ready
  = (Resolves JUndefined, Scenario.ready).
Proof.
  split; [reflexivity |].
  apply (disconnect_without_transport initial_state
           (Throw (Err "Error" "never awaited")) Scenario.ready).
  reflexivity.
Defined.

Lemma disconnect_close_error_logged_witness :
  transport (react Scenario.ready) = Some 1 /\
  run (disconnect (react Scenario.ready)) (Throw (Err "Error" "close failed"))
    Scenario.ready
  = (Resolves JUndefined,
     log_all [TransportClose 1;
              ConsoleError "Error disconnecting from MCP server:"
                (Err "Error" "close failed")]
       Scenario.ready).
Proof.
  split; [reflexivity |].
  apply (disconnect_close_error_logged (react Scenario.ready) 1
           (Err "Error" "close failed") Scenario.ready).
  reflexivity.
Defined.

(** The whole system after a [connect] whose handshake succeeds. *)
Lemma connect_ok_eq (url : string) (r : State) (sid : option string) (s : Sys) :
  client r = None ->
  run (connect url r) (HandshakeOk sid) s
  = (Resolves JUndefined,
     {| react :=
          {| client := Some (next_id s);
             transport := Some (S (next_id s));
             isConnected := true;
             elicitationRequest := elicitationRequest (react s);
             elicitationResolver := elicitationResolver (react s);
             sessionId := sid |};
        promises := promises s;
        next_id := S (S (next_id s));
        trace := trace s ++ connect_effects url (next_id s) |}).
Proof.
  intros Hc. unfold run, connect. rewrite Hc, connect_setup_eq.
  destruct s as [st ps n tr]; unfold connect_connected; exec. reflexivity.
Qed.

(** The two halves of a [disconnect] that holds a transport: the call of
    [close()], and what is done when [close()] has succeeded. *)
Lemma disconnect_start (r : State) (t : nat) (s : Sys) :
  transport r = Some t ->
  snd (disconnect r s) = log (TransportClose t) s.
Proof. intros Ht. unfold disconnect. by rewrite Ht. Qed.

Lemma disconnect_finish (r : State) (t : nat) (s s' : Sys) :
  transport r = Some t ->
  resume (fst (disconnect r s)) (Ok tt) s'
  = (Resolves JUndefined,
     {| react :=
          {| client := None;
             transport := None;
             isConnected := false;
             elicitationRequest := elicitationRequest (react s');
             elicitationResolver := elicitationResolver (react s');
             sessionId := sessionId (react s') |};
        promises := promises s';
        next_id := next_id s';
        trace := trace s' |}).
Proof.
  intros Ht. unfold disconnect. rewrite Ht. destruct s' as [st ps n tr].
  reflexivity.
Qed.

(** A session that connects and is then disconnected, by the
    [disconnect] of the connected render, holds no client and no transport
    and is not connected; the transport closed is the one that was
    created; a new [connect] then creates a transport again.
    [disconnect] itself does not write the session identifier: the
    identifier is cleared when the [onclose] of the transport runs while
    [close()] is awaited ([fires]), and is otherwise still the one the
    handshake reported. *)
Theorem connect_then_disconnect
    (url : string) (sid : option string) (fires : bool) (s : Sys) :
  client (react s) = None ->
  let s1 := snd (run (connect url (react s)) (HandshakeOk sid) s) in
  let closing := disconnect (react s1) s1 in
  let closed :=
    if fires then snd (transport_onclose (snd closing)) else snd closing in
  let s2 := snd (resume (fst closing) (Ok tt) closed) in
  client (react s2) = None /\
  transport (react s2) = None /\
  isConnected (react s2) = false /\
  sessionId (react s2) = (if fires then None else sid) /\
  elicitationRequest (react s2) = elicitationRequest (react s) /\
  elicitationResolver (react s2) = elicitationResolver (react s) /\
  trace s2 = trace s ++ connect_effects url (next_id s)
               ++ [TransportClose (S (next_id s))] /\
  transports_created (snd (connect url (react s2) s2))
  = S (transports_created s2).
Proof.
  intros Hc s1 closing closed s2. subst s2 closed closing s1.
  rewrite (connect_ok_eq _ _ _ _ Hc). cbn [snd react transport].
  rewrite (disconnect_finish _ (S (next_id s))) by reflexivity.
  rewrite (disconnect_start _ (S (next_id s))) by reflexivity.
  destruct s as [st ps n tr].
  destruct fires; cbn;
    (repeat split;
     [by rewrite <- app_assoc
     | unfold transports_created; simpl;
       rewrite !filter_app, !length_app; simpl; lia]).
Qed.

Lemma connect_then_disconnect_witness :
  client (react initial) = None /\
  sessionId
    (react
       (snd (resume
               (fst (disconnect (react Scenario.ready) Scenario.ready))
               (Ok tt)
               (snd (transport_onclose
                       (snd (disconnect (react Scenario.ready)
                               Scenario.ready)))))))
  = None.
Proof.
  split; [reflexivity |].
  apply (connect_then_disconnect Scenario.url (Some "sess-1") true initial).
  reflexivity.
Defined.

(** After the transport of a session with a stored client has closed by
    itself, the session is not connected but the client is still stored:
    the [connect] of the render made then, like the [connect] of every
    render that holds a client, is a no-op however often it is called.
    After a [disconnect] by that render, the [connect] of the next render
    creates a transport. *)
Theorem no_reconnect_after_transport_close
    (url : string) (c t : nat) (n : nat) (s : Sys) :
  client (react s) = Some c ->
  transport (react s) = Some t ->
  let s1 := snd (transport_onclose s) in
  let s2 := snd (run (disconnect (react s1)) (Ok tt) s1) in
  isConnected (react s1) = false /\
  client (react s1) = Some c /\
  (forall r, client r <> None ->
     connect url r s1 = (Settled (Resolves JUndefined), s1)) /\
  connect_calls url n s1 = s1 /\
  transports_created (connect_calls url n s1) = transports_created s /\
  client (react s2) = None /\
  transports_created (snd (connect url (react s2) s2))
  = S (transports_created s).
Proof.
  intros Hc Ht s1 s2.
  assert (Hc1 : client (react s1) = Some c).
  { subst s1. destruct s as [st ps m tr]; simpl in *. exact Hc. }
  assert (Ht1 : transport (react s1) = Some t).
  { subst s1. destruct s as [st ps m tr]; simpl in *. exact Ht. }
  assert (Htr : trace s1 = trace s).
  { subst s1. destruct s as [st ps m tr]; reflexivity. }
  assert (Hany : forall r, client r <> None ->
             connect url r s1 = (Settled (Resolves JUndefined), s1)).
  { intros r Hr. unfold connect. destruct (client r); [reflexivity | done]. }
  assert (Hone : connect url (react s1) s1 = (Settled (Resolves JUndefined), s1)).
  { apply Hany. by rewrite Hc1. }
  assert (Hall : connect_calls url n s1 = s1).
  { clear -Hone. induction n as [| n IH]; [reflexivity |].
    cbn [connect_calls]. rewrite Hone. exact IH. }
  split; [subst s1; destruct s as [st ps m tr]; reflexivity |].
  split; [exact Hc1 |]. split; [exact Hany |]. split; [exact Hall |].
  split; [rewrite Hall; unfold transports_created; by rewrite Htr |].
  subst s2. unfold run, disconnect. rewrite Ht1.
  destruct s1 as [st1 ps1 m1 tr1]; simpl in *. exec.
  split; [reflexivity |].
  unfold transports_created; simpl. subst tr1.
  rewrite !filter_app, !length_app. simpl. lia.
Qed.

Lemma no_reconnect_after_transport_close_witness :
  client (react Scenario.ready) = Some 0 /\
  transport (react Scenario.ready) = Some 1 /\
  connect_calls Scenario.url 3 (snd (transport_onclose Scenario.ready))
  = snd (transport_onclose Scenario.ready).
Proof.
  split; [reflexivity |]. split; [reflexivity |].
  apply (no_reconnect_after_transport_close Scenario.url 0 1 3 Scenario.ready);
    reflexivity.
Defined.

(** The clean-up of the effect calls the [disconnect] of the first render,
    which holds no transport: at unmount nothing is closed and nothing
    changes, whatever the session is. *)
Theorem unmount_cleanup_closes_nothing (closed : Result unit) (s : Sys) :
  run unmount_cleanup closed s = (Resolves JUndefined, s) /\
  unmount_cleanup s = (Settled (Resolves JUndefined), s).
Proof. split; reflexivity. Qed.

(** The effect calls the [connect] of the first render, which holds no
    client: each run of the effect creates a client and a transport and
    starts a handshake, whatever the session is, also when it is ready. *)
Theorem mount_effect_always_connects (url : string) (s : Sys) :
  exists k,
    fst (mount_effect url s) = Awaiting k /\
    trace (snd (mount_effect url s))
    = trace s ++ connect_effects url (next_id s) /\
    react (snd (mount_effect url s)) = react s /\
    transports_created (snd (mount_effect url s))
    = S (transports_created s).
Proof.
  unfold mount_effect, connect. simpl (client initial_state).
  rewrite connect_setup_eq; simpl.
  eexists. split; [reflexivity |]. split; [reflexivity |].
  split; [reflexivity |].
  unfold transports_created; simpl.
  rewrite !filter_app, !length_app. simpl. lia.
Qed.

(** ** The elicitation cycle *)

(** The whole system after the elicitation handler has run. *)
Lemma elicit_handler_eq (request : JsVal) (s : Sys) :
  elicit_handler request s
  = (FollowsPromise (next_id s),
     {| react :=
          {| client := client (react s);
             transport := transport (react s);
             isConnected := isConnected (react s);
             elicitationRequest := request;
             elicitationResolver := Some (ResolverOf (next_id s));
             sessionId := sessionId (react s) |};
        promises := <[next_id s := Pending]> (promises s);
        next_id := S (next_id s);
        trace := trace s |}).
Proof. destruct s as [st ps n tr]. reflexivity. Qed.

(** The modal rendered for a stored request and resolver. *)
Lemma render_modal_some (r : State) (f : Resolver) :
  truthy (elicitationRequest r) = true ->
  elicitationResolver r = Some f ->
  exists m, render_modal r = Some m.
Proof.
  intros Hreq Hf. unfold render_modal. rewrite Hreq, Hf. eauto.
Qed.

(** After an elicitation request (a truthy value, as every request is),
    the render of the provider hands [ElicitationForm] an [onSubmit] and an
    [onCancel].  A call of either raises no exception, resolves the
    suspended computation of that request with the decision
    ([{ action: 'accept', content }] or [{ action: 'cancel' }]), and clears
    the slot, so that the next render has no modal; the provider sends and
    logs nothing.  When no elicitation was waiting before the request, the
    state of the provider is then again what it was before the request. *)
Theorem offer_then_decide (request : JsVal) (d : Decision) (s : Sys) :
  truthy request = true ->
  let s1 := snd (elicit_handler request s) in
  let delivered :=
    match d with
    | Accept content => JObj [("action", JStr "accept"); ("content", content)]
    | Cancel => JObj [("action", JStr "cancel")]
    end in
  exists m,
    render_modal (react s1) = Some m /\
    fst (decide_modal m d s1) = Ok tt /\
    promises (snd (decide_modal m d s1)) !! next_id s
    = Some (Fulfilled delivered) /\
    render_modal (react (snd (decide_modal m d s1))) = None /\
    trace (snd (decide_modal m d s1)) = trace s /\
    (elicitationRequest (react s) = JNull ->
     elicitationResolver (react s) = None ->
     react (snd (decide_modal m d s1)) = react s).
Proof.
  intros Hreq s1 delivered. subst s1.
  assert (Hdel : delivered = decision_response d) by (by destruct d).
  rewrite Hdel. clear Hdel delivered.
  rewrite elicit_handler_eq; simpl.
  destruct (render_modal_some
              {| client := client (react s);
                 transport := transport (react s);
                 isConnected := isConnected (react s);
                 elicitationRequest := request;
                 elicitationResolver := Some (ResolverOf (next_id s));
                 sessionId := sessionId (react s) |}
              (ResolverOf (next_id s)) Hreq eq_refl) as [m Hm].
  exists m. split; [exact Hm |].
  rewrite (render_modal_callbacks _ m _ Hm eq_refl).
  split; [apply call_resolver_ok |].
  split.
  { apply call_resolver_pending. simpl. apply lookup_insert_eq. }
  unfold call_resolver, resolve_promise. exec.
  rewrite lookup_insert_eq; simpl.
  split; [reflexivity |]. split; [reflexivity |].
  intros Hr Hf. destruct s as [st ps n tr]; destruct st; simpl in *.
  by subst.
Qed.

Lemma offer_then_decide_witness :
  truthy Scenario.ask_name = true /\
  exists m,
    render_modal (react (snd (elicit_handler Scenario.ask_name Scenario.ready)))
    = Some m /\
    fst (decide_modal m Cancel
           (snd (elicit_handler Scenario.ask_name Scenario.ready)))
    = Ok tt.
Proof.
  split; [reflexivity |].
  destruct (offer_then_decide Scenario.ask_name Cancel Scenario.ready eq_refl)
    as (m & Hm & Hok & _).
  exists m. split; [exact Hm | exact Hok].
Defined.

(** When a second elicitation request arrives before the first is decided,
    the decision taken in the modal resolves the computation of the second
    request only: the computation of the first stays pending, and with the
    modal gone no decision can reach it any more. *)
Theorem overwritten_offer_stays_pending
    (first second : JsVal) (d : Decision) (s : Sys) :
  truthy second = true ->
  let s1 := snd (elicit_handler first s) in
  let s2 := snd (elicit_handler second s1) in
  exists m,
    render_modal (react s2) = Some m /\
    form_schema m
    = get_prop_opt (get_prop_opt second "params") "requestedSchema" /\
    promises (snd (decide_modal m d s2)) !! S (next_id s)
    = Some (Fulfilled (decision_response d)) /\
    promises (snd (decide_modal m d s2)) !! next_id s = Some Pending /\
    render_modal (react (snd (decide_modal m d s2))) = None.
Proof.
  intros Hreq s1 s2. subst s2 s1. rewrite !elicit_handler_eq; simpl.
  eexists. unfold render_modal; simpl. rewrite Hreq.
  split; [reflexivity |]. split; [reflexivity |].
  destruct d; simpl; unfold call_resolver, resolve_promise; exec;
    rewrite lookup_insert_eq; simpl;
    (split; [apply lookup_insert_eq |]);
    (split; [| reflexivity]);
    rewrite lookup_insert_ne by lia;
    rewrite lookup_insert_ne by lia;
    apply lookup_insert_eq.
Qed.

Lemma overwritten_offer_stays_pending_witness :
  truthy Scenario.ask_age = true /\
  exists m,
    render_modal
      (react (snd (elicit_handler Scenario.ask_age
                     (snd (elicit_handler Scenario.ask_name Scenario.ready)))))
    = Some m /\
    promises
      (snd (decide_modal m Cancel
              (snd (elicit_handler Scenario.ask_age
                      (snd (elicit_handler Scenario.ask_name Scenario.ready))))))
      !! next_id Scenario.ready
    = Some Pending.
Proof.
  split; [reflexivity |].
  destruct (overwritten_offer_stays_pending Scenario.ask_name Scenario.ask_age
              Cancel Scenario.ready eq_refl)
    as (m & Hm & _ & _ & Hp & _).
  exists m. split; [exact Hm | exact Hp].
Defined.

(** ** Requests *)

(** With a client stored in its render, each of the six operations hands
    exactly one request to that client and returns the client's promise;
    the method and the result schema are one of the six fixed pairs; the
    state of the provider and the promises are not touched. *)
Theorem operation_with_client
    (url : string) (r : State) (c : nat) (op : Operation) (s : Sys) :
  client r = Some c ->
  exists req schema,
    call_operation (provider_value url r) op s
    = (FollowsRequest c req schema, log (ClientRequest c req schema) s) /\
    (method req, schema) ∈ protocol_pairs /\
    react (snd (call_operation (provider_value url r) op s)) = react s /\
    promises (snd (call_operation (provider_value url r) op s)) = promises s.
Proof.
  intros Hc.
  destruct op; simpl;
    unfold listTools, listPrompts, getPrompt, listResources, readResource,
      callTool, require_client;
    rewrite Hc; exec;
    eexists; eexists;
    (split; [reflexivity |]); (split; [| split; reflexivity]);
    unfold protocol_pairs; simpl; set_solver.
Qed.

Lemma operation_with_client_witness :
  client (react Scenario.ready) = Some 0 /\
  exists req schema,
    call_operation (provider_value Scenario.url (react Scenario.ready))
      (OpReadResource "file:///notes.txt") Scenario.ready
    = (FollowsRequest 0 req schema,
       log (ClientRequest 0 req schema) Scenario.ready).
Proof.
  split; [reflexivity |].
  destruct (operation_with_client Scenario.url (react Scenario.ready) 0
              (OpReadResource "file:///notes.txt") Scenario.ready eq_refl)
    as (req & schema & Heq & _).
  exists req, schema. exact Heq.
Defined.

(** The continuation of the "resource list changed" handler, once the
    request it awaits is fulfilled with an object whose [resources] is an
    array: it logs the number of resources, and changes nothing else. *)
Theorem resources_count_logged
    (newClient : nat) (notification : JsVal) (s : Sys)
    (fields : list (string * JsVal)) (items : list JsVal) (s1 : Sys) :
  assoc "resources" fields = JArr items ->
  resume (fst (resourceListChanged_handler newClient notification s))
    (Ok (JObj fields)) s1
  = (Resolves JUndefined,
     log (ConsoleLog "Resources changed, count:" (JNum (length items))) s1).
Proof.
  intros Hres. unfold resourceListChanged_handler, resources_count. exec.
  rewrite Hres. reflexivity.
Qed.

Lemma resources_count_logged_witness :
  assoc "resources"
    [("resources", JArr [JObj [("uri", JStr "file:///a")];
                         JObj [("uri", JStr "file:///b")]])]
  = JArr [JObj [("uri", JStr "file:///a")]; JObj [("uri", JStr "file:///b")]] /\
  resume (fst (resourceListChanged_handler 0 JNull Scenario.ready))
    (Ok (JObj [("resources", JArr [JObj [("uri", JStr "file:///a")];
                                   JObj [("uri", JStr "file:///b")]])]))
    Scenario.ready
  = (Resolves JUndefined,
     log (ConsoleLog "Resources changed, count:" (JNum 2)) Scenario.ready).
Proof.
  split; [reflexivity |].
  apply (resources_count_logged 0 JNull Scenario.ready
           [("resources", JArr [JObj [("uri", JStr "file:///a")];
                                JObj [("uri", JStr "file:///b")]])]
           [JObj [("uri", JStr "file:///a")]; JObj [("uri", JStr "file:///b")]]
           Scenario.ready).
  reflexivity.
Defined.

(** The same continuation at the edges: a result without [resources] (or
    with a null one) is logged as a count of 0; a result that is itself
    [null] or [undefined] makes the count throw a [TypeError], which is
    caught and reported with [console.warn] like a failed request. *)
Theorem resources_count_missing
    (newClient : nat) (notification : JsVal) (s : Sys)
    (fields : list (string * JsVal)) (s1 : Sys) :
  nullish (assoc "resources" fields) = true ->
  let k := resume (fst (resourceListChanged_handler newClient notification s)) in
  k (Ok (JObj fields)) s1
  = (Resolves JUndefined,
     log (ConsoleLog "Resources changed, count:" (JNum 0)) s1) /\
  (forall res, nullish res = true ->
     exists message,
       k (Ok res) s1
       = (Resolves JUndefined,
          log (ConsoleWarn "Failed to list resources after notification"
                 (Err "TypeError" message)) s1)).
Proof.
  intros Hres k. subst k.
  unfold resourceListChanged_handler, resources_count. exec.
  split.
  - destruct (assoc "resources" fields); try discriminate; reflexivity.
  - intros res Hnull. destruct res; try discriminate; eexists; reflexivity.
Qed.

Lemma resources_count_missing_witness :
  nullish (assoc "resources" [("nextCursor", JStr "c1")]) = true /\
  resume (fst (resourceListChanged_handler 0 JNull Scenario.ready))
    (Ok (JObj [("nextCursor", JStr "c1")])) Scenario.ready
  = (Resolves JUndefined,
     log (ConsoleLog "Resources changed, count:" (JNum 0)) Scenario.ready).
Proof.
  split; [reflexivity |].
  apply (resources_count_missing 0 JNull Scenario.ready
           [("nextCursor", JStr "c1")] Scenario.ready).
  reflexivity.
Defined.

(** ** The modal and the form *)

(** The message and the schema of a rendered modal.  The message is the
    [message] of the request's [params] when that is truthy (a text that
    is not empty), and "Request information" otherwise, so it is always
    truthy; the schema given to the form is the [requestedSchema] of the
    [params].  A request without [params] gives the default message and an
    undefined schema. *)
Theorem modal_message_default (r : State) (m : Modal) :
  render_modal r = Some m ->
  let message :=
    get_prop_opt (get_prop_opt (elicitationRequest r) "params") "message" in
  truthy (modal_message m) = true /\
  (truthy message = true -> modal_message m = message) /\
  (truthy message = false -> modal_message m = JStr "Request information") /\
  form_schema m
  = get_prop_opt (get_prop_opt (elicitationRequest r) "params")
      "requestedSchema" /\
  (nullish (get_prop_opt (elicitationRequest r) "params") = true ->
   modal_message m = JStr "Request information" /\
   form_schema m = JUndefined).
Proof.
  intros Hm message. subst message. unfold render_modal in Hm.
  destruct (truthy (elicitationRequest r)); [| discriminate].
  destruct (elicitationResolver r) as [f |]; [| discriminate].
  injection Hm as <-. simpl. unfold js_or.
  split; [| split; [| split; [| split]]].
  - destruct (truthy (get_prop_opt (get_prop_opt (elicitationRequest r) "params")
                        "message")) eqn:Hmsg; [exact Hmsg | reflexivity].
  - intros Hmsg. by rewrite Hmsg.
  - intros Hmsg. by rewrite Hmsg.
  - reflexivity.
  - intros Hp.
    destruct (get_prop_opt (elicitationRequest r) "params");
      try discriminate; split; reflexivity.
Qed.

Lemma modal_message_default_witness :
  render_modal (react Scenario.asked) = Some Scenario.name_modal /\
  (truthy (get_prop_opt (get_prop_opt (elicitationRequest (react Scenario.asked))
                           "params") "message") = true ->
   modal_message Scenario.name_modal = JStr "Your name?").
Proof.
  split; [reflexivity |].
  apply (modal_message_default (react Scenario.asked) Scenario.name_modal).
  reflexivity.
Defined.

(** [handleSubmit] calls [onSubmit] inside its [try] block: when Ajv has
    validated the values and [onSubmit] then throws, the [catch] block
    calls [onSubmit] a second time, with the same values, and what the
    second call does is what [handleSubmit] does. *)
Theorem handleSubmit_retries_throwing_onSubmit
    (ajv_compile : JsVal -> Result (JsVal -> Result bool))
    (schema state : JsVal) (onSubmit : JsVal -> M unit)
    (validate : JsVal -> Result bool) (ok : bool) (e : Error) (s s1 : Sys) :
  ajv_compile (js_or schema (JObj [])) = Ok validate ->
  validate state = Ok ok ->
  onSubmit state (log_all (ajv_calls ajv_compile schema state) s)
  = (Throw e, s1) ->
  handleSubmit ajv_compile schema state onSubmit s = onSubmit state s1.
Proof.
  intros Hc Hv Hthrow. unfold handleSubmit, ajv_calls in *.
  rewrite Hc in *. destruct s as [st ps n tr]. revert Hthrow. exec.
  rewrite <- app_assoc; simpl. rewrite Hv.
  intros Hthrow. destruct ok; rewrite Hthrow; reflexivity.
Qed.

Lemma handleSubmit_retries_throwing_onSubmit_witness :
  Scenario.ajv_rejects (js_or JUndefined (JObj [])) = Ok (fun _ => Ok false) /\
  trace (snd (handleSubmit Scenario.ajv_rejects JUndefined Scenario.typed_name
                Scenario.throwing_listener initial))
  = [AjvCompile (JObj []); AjvValidate Scenario.typed_name;
     ConsoleLog "submitted" Scenario.typed_name;
     ConsoleLog "submitted" Scenario.typed_name].
Proof.
  split; [reflexivity |].
  rewrite (handleSubmit_retries_throwing_onSubmit Scenario.ajv_rejects
             JUndefined Scenario.typed_name Scenario.throwing_listener
             (fun _ => Ok false) false
             (Err "Error" "listener failed")
             initial
             (log_all [AjvCompile (JObj []); AjvValidate Scenario.typed_name;
                       ConsoleLog "submitted" Scenario.typed_name] initial)
             eq_refl eq_refl eq_refl).
  reflexivity.
Defined.

(** *** The state of the form *)





Lemma has_key_cons_false (k k' : string) (v' : JsVal)
    (rest : list (string * JsVal)) :
  has_key k ((k', v') :: rest) = false ->
  String.eqb k k' = false /\ has_key k rest = false.
Proof. simpl. by intros [? ?]%orb_false_iff. Qed.

Lemma assoc_replace_eq (k : string) (v : JsVal) (fields : list (string * JsVal)) :
  has_key k fields = true -> assoc k (obj_replace k v fields) = v.
Proof.
  induction fields as [| [k' v'] rest IH]; simpl; [discriminate |].
  destruct (String.eqb k k') eqn:Hk; simpl.
  - by rewrite String.eqb_refl.
  - rewrite Hk. exact IH.
Qed.

Lemma assoc_replace_ne (k k0 : string) (v : JsVal)
    (fields : list (string * JsVal)) :
  k0 <> k -> assoc k0 (obj_replace k v fields) = assoc k0 fields.
Proof.
  intros Hne.
  assert (Hk0 : String.eqb k0 k = false) by by apply String.eqb_neq.
  induction fields as [| [k' v'] rest IH]; simpl; [reflexivity |].
  destruct (String.eqb k k') eqn:Hk; simpl.
  - apply String.eqb_eq in Hk. subst k'. by rewrite Hk0.
  - by rewrite IH.
Qed.


Lemma assoc_insert_index_eq (n : N) (k : string) (v : JsVal)
    (fields : list (string * JsVal)) :
  has_key k fields = false -> assoc k (obj_insert_index n k v fields) = v.
Proof.
  induction fields as [| [k' v'] rest IH]; simpl.
  - by rewrite String.eqb_refl.
  - intros [Hk Hrest]%orb_false_iff.
    destruct (array_index k') as [n' |]; [destruct (n' <? n)%N |]; simpl;
      rewrite ?String.eqb_refl; try reflexivity.
    rewrite Hk. by apply IH.
Qed.

Lemma assoc_insert_index_ne (n : N) (k k0 : string) (v : JsVal)
    (fields : list (string * JsVal)) :
  k0 <> k -> assoc k0 (obj_insert_index n k v fields) = assoc k0 fields.
Proof.
  intros Hne.
  assert (Hk0 : String.eqb k0 k = false) by by apply String.eqb_neq.
  induction fields as [| [k' v'] rest IH]; simpl.
  - by rewrite Hk0.
  - destruct (array_index k') as [n' |]; [destruct (n' <? n)%N |]; simpl;
      rewrite ?Hk0; try reflexivity.
    by rewrite IH.
Qed.


Lemma assoc_app_new (k k0 : string) (v : JsVal) (fields : list (string * JsVal)) :
  assoc k0 (fields ++ [(k, v)])
  = if has_key k0 fields then assoc k0 fields
    else if String.eqb k0 k then v else JUndefined.
Proof.
  induction fields as [| [k' v'] rest IH]; simpl; [reflexivity |].
  destruct (String.eqb k0 k'); simpl; [reflexivity | exact IH].
Qed.

Lemma assoc_no_key (k : string) (fields : list (string * JsVal)) :
  has_key k fields = false -> assoc k fields = JUndefined.
Proof.
  induction fields as [| [k' v'] rest IH]; simpl; [reflexivity |].
  intros [Hk Hrest]%orb_false_iff. rewrite Hk. by apply IH.
Qed.

Lemma assoc_obj_set_eq (k : string) (v : JsVal) (fields : list (string * JsVal)) :
  assoc k (obj_set k v fields) = v.
Proof.
  unfold obj_set. destruct (has_key k fields) eqn:Hk.
  - by apply assoc_replace_eq.
  - unfold obj_add. destruct (array_index k).
    + by apply assoc_insert_index_eq.
    + by rewrite assoc_app_new, Hk, String.eqb_refl.
Qed.

Lemma assoc_obj_set_ne (k k0 : string) (v : JsVal)
    (fields : list (string * JsVal)) :
  k0 <> k ->
  assoc k0 (obj_set k v fields) = assoc k0 fields.
Proof.
  intros Hne. unfold obj_set. destruct (has_key k fields).
  - by apply assoc_replace_ne.
  - unfold obj_add. destruct (array_index k).
    + by apply assoc_insert_index_ne.
    + rewrite assoc_app_new.
      destruct (has_key k0 fields) eqn:Hk0; [reflexivity |].
      apply String.eqb_neq in Hne. rewrite Hne. by rewrite assoc_no_key.
Qed.



(** Typing in an input: the input shows what was typed, and every other
    input shows what it showed before. *)
Theorem onChange_sets_one_input
    (name other value : string) (fields : list (string * JsVal)) :
  other <> name ->
  input_value (onChange name value (JObj fields)) name = Ok (JStr value) /\
  input_value (onChange name value (JObj fields)) other
  = input_value (JObj fields) other.
Proof.
  intros Hne. unfold input_value, onChange; simpl.
  rewrite assoc_obj_set_eq. split; [reflexivity |].
  by rewrite assoc_obj_set_ne.
Qed.

Lemma onChange_sets_one_input_witness :
  "city" <> "name" /\
  input_value (onChange "name" "Ada"
                 (JObj [("name", JStr ""); ("city", JStr "Paris")])) "city"
  = input_value (JObj [("name", JStr ""); ("city", JStr "Paris")]) "city".
Proof.
  split; [discriminate |].
  apply (onChange_sets_one_input "name" "city" "Ada"
           [("name", JStr ""); ("city", JStr "Paris")]).
  discriminate.
Defined.




(** ** What holds in every configuration *)

Lemma consistent_connection (s s' : Sys) :
  connection_consistent (react s') ->
  elicitationResolver (react s') = elicitationResolver (react s) ->
  promises s' = promises s ->
  next_id s <= next_id s' ->
  consistent s -> consistent s'.
Proof.
  intros Hconn Hres Hps Hn (_ & Hc & Hd & He).
  split; [exact Hconn |]. unfold slot_consistent. rewrite Hres, Hps.
  split; [exact Hc |]. split; [exact Hd |].
  intros p Hp. specialize (He p Hp). lia.
Qed.

Lemma consistent_frame (s s' : Sys) :
  react s' = react s ->
  promises s' = promises s ->
  next_id s <= next_id s' ->
  consistent s -> consistent s'.
Proof.
  intros Hr Hps Hn Hs. apply (consistent_connection s s'); try done.
  - rewrite Hr. apply Hs.
  - by rewrite Hr.
Qed.

Lemma consistent_log (e : Effect) (s : Sys) :
  consistent s -> consistent (log e s).
Proof. by apply consistent_frame. Qed.

Lemma consistent_log_all (es : list Effect) (s : Sys) :
  consistent s -> consistent (log_all es s).
Proof. by apply consistent_frame. Qed.

Lemma consistent_initial : consistent initial.
Proof.
  repeat split; simpl; try done.
  - intros p [x Hx]. by rewrite lookup_empty in Hx.
Qed.

Lemma consistent_elicit (request : JsVal) (s : Sys) :
  consistent s -> consistent (snd (elicit_handler request s)).
Proof.
  intros (Hconn & Hc & Hd & He). rewrite elicit_handler_eq; simpl.
  split; [exact Hconn |]. unfold slot_consistent; simpl.
  split; [| split].
  - intros p [= <-]. apply lookup_insert_eq.
  - intros p e. destruct (decide (p = next_id s)) as [-> | Hne].
    + by rewrite lookup_insert_eq.
    + rewrite lookup_insert_ne by done. apply Hd.
  - intros p. destruct (decide (p = next_id s)) as [-> | Hne]; [lia |].
    rewrite lookup_insert_ne by done. intros Hp. specialize (He p Hp). lia.
Qed.

Lemma consistent_call_resolver (f : Resolver) (res : JsVal) (s : Sys) :
  consistent s -> consistent (snd (call_resolver f res s)).
Proof.
  intros (Hconn & Hc & Hd & He). destruct f as [p0].
  destruct s as [st ps n tr]; simpl in *.
  unfold call_resolver, resolve_promise. exec.
  destruct (ps !! p0) as [[| v | e] |] eqn:Hp0; simpl;
    (split; [exact Hconn |]); unfold slot_consistent; simpl;
    (split; [discriminate |]); try (split; [exact Hd | exact He]).
  split.
  - intros p e. destruct (decide (p = p0)) as [-> | Hne].
    + by rewrite lookup_insert_eq.
    + rewrite lookup_insert_ne by done. apply Hd.
  - intros p. destruct (decide (p = p0)) as [-> | Hne].
    + intros _. apply He. by rewrite Hp0.
    + rewrite lookup_insert_ne by done. apply He.
Qed.

(** The callbacks of a rendered modal, as calls of some resolver. *)
Lemma render_modal_resolver (r : State) (m : Modal) :
  render_modal r = Some m ->
  exists f,
    elicitationResolver r = Some f /\
    forall d, decide_modal m d = call_resolver f (decision_response d).
Proof.
  intros Hm. destruct (elicitationResolver r) as [f |] eqn:Hf.
  - exists f. split; [reflexivity |]. by apply (render_modal_callbacks r).
  - unfold render_modal in Hm. rewrite Hf in Hm.
    destruct (truthy (elicitationRequest r)); discriminate.
Qed.

(** An operation leaves the system as it is, or adds one call to the
    trace. *)
Lemma operation_logs (url : string) (r : State) (op : Operation) (s : Sys) :
  snd (call_operation (provider_value url r) op s) = s \/
  exists e, snd (call_operation (provider_value url r) op s) = log e s.
Proof.
  destruct op; simpl;
    unfold listTools, listPrompts, getPrompt, listResources, readResource,
      callTool, require_client;
    destruct (client r); exec; eauto.
Qed.

(** The continuation of the "resource list changed" handler adds one line
    to the console. *)
Lemma resources_handler_logs (cl : nat) (notification : JsVal) (s : Sys) :
  exists k,
    resourceListChanged_handler cl notification s
    = (Awaiting k,
       log (ClientRequest cl {| method := "resources/list"; params := JObj [] |}
              ListResourcesResultSchema) s) /\
    forall res s1, exists ev, snd (k res s1) = log ev s1.
Proof.
  unfold resourceListChanged_handler. exec.
  eexists. split; [reflexivity |].
  intros [res | e] s1; [| eexists; reflexivity].
  unfold resources_count. exec. destruct res; simpl; eexists; reflexivity.
Qed.

Section Invariant.

Variable MCP_SERVER_URL : string.
Variable ajv_compile : JsVal -> Result (JsVal -> Result bool).

Local Abbreviation step := (step MCP_SERVER_URL ajv_compile).
Local Abbreviation reachable := (reachable MCP_SERVER_URL ajv_compile).

Lemma invariant_resume (c : Config) (w : Suspended)
    (before after : list Suspended) :
  invariant c ->
  pool c = before ++ w :: after ->
  keeps_consistent w /\ Forall keeps_consistent (before ++ after).
Proof.
  intros [_ Hpool] Heq. rewrite Heq in Hpool.
  apply Forall_app in Hpool as [Hb Hw].
  apply Forall_cons in Hw as [Hw Ha].
  split; [exact Hw |]. apply Forall_app. by split.
Qed.

Lemma connect_keeps_invariant (r : State) (c : Config) :
  invariant c ->
  invariant {| sys := snd (connect MCP_SERVER_URL r (sys c));
               renders := renders c;
               pool := suspend AwaitsHandshake
                         (fst (connect MCP_SERVER_URL r (sys c))) (pool c) |}.
Proof.
  intros [Hs Hpool]. unfold connect.
  destruct (client r); [by split |].
  rewrite connect_setup_eq. split; simpl.
  - apply (consistent_frame (sys c)); simpl; try done. lia.
  - constructor; [| exact Hpool].
    intros h s Hcons. destruct h as [sid | error].
    + destruct s as [st ps n tr]. unfold connect_connected. exec.
      apply (consistent_connection
               {| react := st; promises := ps; next_id := n; trace := tr |});
        simpl; try done.
    + destruct s as [st ps n tr]. unfold connect_connected, connect_catch.
      exec.
      apply (consistent_connection
               {| react := st; promises := ps; next_id := n; trace := tr |});
        simpl; try done.
Qed.

Lemma disconnect_keeps_invariant (r : State) (c : Config) :
  invariant c ->
  invariant {| sys := snd (disconnect r (sys c));
               renders := renders c;
               pool := suspend AwaitsClose (fst (disconnect r (sys c)))
                         (pool c) |}.
Proof.
  intros [Hs Hpool]. unfold disconnect.
  destruct (transport r) as [t |]; [| by split].
  split; simpl; [by apply consistent_log |].
  constructor; [| exact Hpool].
  intros closed s Hcons. destruct s as [st ps n tr].
  destruct closed as [[] | error]; exec.
  - apply (consistent_connection
             {| react := st; promises := ps; next_id := n; trace := tr |});
      simpl; try done.
  - apply (consistent_frame
             {| react := st; promises := ps; next_id := n; trace := tr |});
      simpl; done.
Qed.

Lemma step_keeps_invariant (c c' : Config) :
  step c c' -> invariant c -> invariant c'.
Proof.
  intros Hstep Hinv. destruct Hstep.
  - exact Hinv.
  - by apply connect_keeps_invariant.
  - destruct (invariant_resume _ _ _ _ Hinv H) as [Hk Hrest].
    split; simpl; [apply Hk, Hinv | exact Hrest].
  - by apply disconnect_keeps_invariant.
  - destruct (invariant_resume _ _ _ _ Hinv H) as [Hk Hrest].
    split; simpl; [apply Hk, Hinv | exact Hrest].
  - destruct Hinv as [Hs Hpool]. split; simpl; [| exact Hpool].
    destruct (operation_logs MCP_SERVER_URL r op (sys c)) as [-> | [e ->]];
      [exact Hs | by apply consistent_log].
  - destruct Hinv as [Hs Hpool]. split; simpl; [| exact Hpool].
    destruct (sys c) as [st ps n tr] eqn:Hsys. unfold transport_onclose. exec.
    apply (consistent_connection
             {| react := st; promises := ps; next_id := n; trace := tr |});
      simpl; try done.
    destruct Hs as [[Hct _] _]. split; simpl; [exact Hct | discriminate].
  - destruct Hinv as [Hs Hpool]. split; simpl; [| exact Hpool].
    by apply consistent_log.
  - destruct Hinv as [Hs Hpool]. split; simpl; [| exact Hpool].
    by apply consistent_log.
  - destruct Hinv as [Hs Hpool]. split; simpl; [| exact Hpool].
    unfold logging_handler. exec.
    destruct (get_prop notification "params"); simpl;
      [by apply consistent_log | exact Hs].
  - destruct Hinv as [Hs Hpool].
    destruct (resources_handler_logs cl notification (sys c))
      as (k & -> & Hk).
    split; simpl; [by apply consistent_log |].
    constructor; [| exact Hpool].
    intros res s1 Hs1. destruct (Hk res s1) as [ev ->].
    by apply consistent_log.
  - destruct (invariant_resume _ _ _ _ Hinv H) as [Hk Hrest].
    split; simpl; [apply Hk, Hinv | exact Hrest].
  - destruct Hinv as [Hs Hpool]. split; simpl; [| exact Hpool].
    by apply consistent_elicit.
  - destruct Hinv as [Hs Hpool]. split; simpl; [| exact Hpool].
    destruct (render_modal_resolver _ _ H0) as (f & _ & Hcb).
    assert (Hsub : forall content0,
               form_onSubmit m content0
               = call_resolver f (accept_response content0))
      by (intros content0; exact (Hcb (Accept content0))).
    rewrite handleSubmit_calls_onSubmit.
    + rewrite Hsub.
      by apply consistent_call_resolver, consistent_log_all.
    + intros content0 s0. rewrite Hsub. apply call_resolver_ok.
  - destruct Hinv as [Hs Hpool]. split; simpl; [| exact Hpool].
    destruct (render_modal_resolver _ _ H0) as (f & _ & Hcb).
    assert (Hcancel : form_onCancel m = call_resolver f cancel_response)
      by exact (Hcb Cancel).
    rewrite Hcancel. by apply consistent_call_resolver.
Qed.

Lemma reachable_invariant (c : Config) : reachable c -> invariant c.
Proof.
  revert c. apply rtc_ind_r.
  - split; [apply consistent_initial | constructor].
  - intros c c' _ Hstep Hinv. by apply (step_keeps_invariant c).
Qed.

End Invariant.

(** The configurations of [Steps] are reached in four events. *)
Lemma steps_asked_reachable
    (ajv_compile : JsVal -> Result (JsVal -> Result bool)) :
  reachable Scenario.url ajv_compile Steps.asked.
Proof.
  unfold reachable.
  apply (rtc_l _ _ Steps.connecting).
  { exact (step_connect Scenario.url ajv_compile mounted initial_state
             (list_elem_of_here _ _)). }
  apply (rtc_l _ _ Steps.ready).
  { exact (step_handshake Scenario.url ajv_compile Steps.connecting
             _ (HandshakeOk (Some "sess-1")) [] [] eq_refl). }
  apply (rtc_l _ _ Steps.rendered).
  { exact (step_render Scenario.url ajv_compile Steps.ready). }
  apply (rtc_l _ _ Steps.asked); [| apply rtc_refl].
  apply (step_elicit Scenario.url ajv_compile Steps.rendered 0
           Scenario.ask_name).
  vm_compute. set_solver.
Qed.

(** In every configuration a mounted provider can reach, whatever the
    order of the calls, of the answers of the server and of the renders:
    the client and the transport are stored together (both or neither),
    and [isConnected] is true only while both are stored. *)
Theorem reachable_connection_consistent
    (url : string) (ajv_compile : JsVal -> Result (JsVal -> Result bool))
    (c : Config) :
  reachable url ajv_compile c ->
  (client (react (sys c)) = None <-> transport (react (sys c)) = None) /\
  (isConnected (react (sys c)) = true ->
   client (react (sys c)) <> None /\ transport (react (sys c)) <> None).
Proof.
  intros Hreach.
  destruct (reachable_invariant _ _ _ Hreach) as [[[Hct Hconn] _] _].
  split; [exact Hct |]. intros Hic. specialize (Hconn Hic).
  split; [exact Hconn |]. intros Ht. by apply Hconn, Hct.
Qed.

Lemma reachable_connection_consistent_witness :
  reachable Scenario.url Scenario.ajv_rejects Steps.asked /\
  (isConnected (react (sys Steps.asked)) = true ->
   client (react (sys Steps.asked)) <> None /\
   transport (react (sys Steps.asked)) <> None).
Proof.
  split; [apply steps_asked_reachable |].
  apply (reachable_connection_consistent Scenario.url Scenario.ajv_rejects
           Steps.asked).
  apply steps_asked_reachable.
Defined.

(** In every configuration a mounted provider can reach, the resolver
    that is stored is the resolver of a computation that is still
    pending, and no computation of an elicitation has been rejected. *)
Theorem reachable_slot_pending
    (url : string) (ajv_compile : JsVal -> Result (JsVal -> Result bool))
    (c : Config) :
  reachable url ajv_compile c ->
  (forall p, elicitationResolver (react (sys c)) = Some (ResolverOf p) ->
             promises (sys c) !! p = Some Pending) /\
  (forall p e, promises (sys c) !! p <> Some (Rejected e)).
Proof.
  intros Hreach.
  destruct (reachable_invariant _ _ _ Hreach) as [[_ (Hc & Hd & _)] _].
  by split.
Qed.

Lemma reachable_slot_pending_witness :
  reachable Scenario.url Scenario.ajv_rejects Steps.asked /\
  (forall p,
      elicitationResolver (react (sys Steps.asked)) = Some (ResolverOf p) ->
      promises (sys Steps.asked) !! p = Some Pending).
Proof.
  split; [apply steps_asked_reachable |].
  apply (reachable_slot_pending Scenario.url Scenario.ajv_rejects Steps.asked).
  apply steps_asked_reachable.
Defined.



(** In every configuration a mounted provider can reach in which
    [isConnected] is true, no operation of the current render is rejected
    with "Not connected": each one hands its request to the stored
    client. *)
Theorem reachable_connected_operations
    (url : string) (ajv_compile : JsVal -> Result (JsVal -> Result bool))
    (c : Config) (op : Operation) :
  reachable url ajv_compile c ->
  isConnected (react (sys c)) = true ->
  exists cl req schema,
    client (react (sys c)) = Some cl /\
    call_operation (provider_value url (react (sys c))) op (sys c)
    = (FollowsRequest cl req schema,
       log (ClientRequest cl req schema) (sys c)).
Proof.
  intros Hreach Hic.
  destruct (reachable_invariant _ _ _ Hreach) as [[[_ Hconn] _] _].
  specialize (Hconn Hic).
  destruct (client (react (sys c))) as [cl |] eqn:Hcl; [| done].
  exists cl.
  destruct op; simpl;
    unfold listTools, listPrompts, getPrompt, listResources, readResource,
      callTool, require_client;
    rewrite Hcl; exec; eexists; eexists; (split; reflexivity).
Qed.

Lemma reachable_connected_operations_witness :
  reachable Scenario.url Scenario.ajv_rejects Steps.asked /\
  isConnected (react (sys Steps.asked)) = true /\
  exists cl req schema,
    client (react (sys Steps.asked)) = Some cl /\
    call_operation (provider_value Scenario.url (react (sys Steps.asked)))
      OpListTools (sys Steps.asked)
    = (FollowsRequest cl req schema,
       log (ClientRequest cl req schema) (sys Steps.asked)).
Proof.
  split; [apply steps_asked_reachable |]. split; [reflexivity |].
  apply (reachable_connected_operations Scenario.url Scenario.ajv_rejects
           Steps.asked OpListTools
           (steps_asked_reachable Scenario.ajv_rejects) eq_refl).
Defined.

(** ** Errors and log messages *)

(** An error reported by the client or by the transport is written on the
    console and nothing else happens: the state of the provider (and so
    [isConnected]) and the promises are what they were.  The same holds of
    a logging notification, which writes its [params] on the console. *)
Theorem errors_are_only_logged
    (err : Error) (fields : list (string * JsVal)) (s : Sys) :
  client_onerror err s = (Ok tt, log (ConsoleError "MCP Client error:" err) s) /\
  transport_onerror err s = (Ok tt, log (ConsoleError "Transport error" err) s) /\
  logging_handler (JObj fields) s
  = (Ok tt, log (ConsoleLog "MCP notification:" (assoc "params" fields)) s) /\
  react (snd (client_onerror err s)) = react s /\
  react (snd (transport_onerror err s)) = react s /\
  react (snd (logging_handler (JObj fields) s)) = react s /\
  promises (snd (transport_onerror err s)) = promises s.
Proof. repeat split. Qed.
